(** * sch_testbed.h: drop and queue-delay reporting for the testbed

    A shallow embedding of [include/net/sch_testbed.h] and the properties
    of its minifloat codec, its drop accumulator, the IPv4 identification
    field embedding with its incremental checksum update, and the
    protocol dispatch in front of it.

    Fixed-width C integers are integers of [Z] with the wrap-around
    written out: [u32 x] and [u16 x] are the conversions to the unsigned
    32 and 16 bit types.  A shift whose count is not below the width of
    its operand is undefined in C; the statements about the codec
    therefore range over the parameter pairs for which every shift of the
    source is defined (see [codec_params_ok]). *)

From Stdlib Require Import ZArith Lia Bool List.
From stdpp Require Import base list.

Local Open Scope Z_scope.

(** ** Fixed-width arithmetic *)

Definition u32 (x : Z) : Z := x mod 2 ^ 32.
Definition u16 (x : Z) : Z := x mod 2 ^ 16.

(** [__builtin_clz] on a non-zero 32-bit operand: the number of zero bits
    above the most significant one. *)
Definition builtin_clz (x : Z) : Z := 31 - Z.log2 x.

(** ** Codec parameters (the #define lines of the header) *)

Definition DROPS_M : Z := 2.
Definition DROPS_E : Z := 3.
Definition QDELAY_M : Z := 7.
Definition QDELAY_E : Z := 4.

(** ** The minifloat codec *)

(** [fl2int]: decode float value. *)
Definition fl2int (fl m_b e_b : Z) : Z :=
  let m_max := u32 (Z.shiftl 1 m_b) in
  let fl := Z.land fl (u32 (u32 (Z.shiftl m_max e_b) - 1)) in
  if fl <? u32 (Z.shiftl m_max 1) then fl
  else
    u32 (Z.shiftl (u32 (Z.land fl (u32 (m_max - 1)) + m_max))
                  (u32 (Z.shiftr fl m_b - 1))).

(** The three constants computed at the head of [int2fl]. *)
Definition int2fl_max_e (e_b : Z) : Z := u32 (u32 (Z.shiftl 1 e_b) - 1).
Definition int2fl_max_m (m_b : Z) : Z := u32 (u32 (Z.shiftl 1 m_b) - 1).
Definition int2fl_max_fl (m_b e_b : Z) : Z :=
  u32 (Z.shiftl (u32 (u32 (Z.shiftl (int2fl_max_m m_b) 1) + 1))
                (u32 (int2fl_max_e e_b - 1))).

(** [int2fl]: encode integer value as float value, rounding down.  The
    result pairs the returned codeword with the value stored through the
    out parameter [r]. *)
Definition int2fl (val m_b e_b : Z) : Z * Z :=
  let max_fl := int2fl_max_fl m_b e_b in
  if val <? u32 (Z.shiftl 1 (m_b + 1)) then
    (val, 0)
  else if max_fl <=? val then
    (u32 (u32 (Z.shiftl 1 (m_b + e_b)) - 1), u32 (val - max_fl))
  else
    let len := u32 (u32 (32 - builtin_clz val) - 1) in
    let exponent := u32 (len - m_b) in
    let mantissa :=
      Z.land (Z.shiftr val exponent) (u32 (u32 (Z.shiftl 1 m_b) - 1)) in
    let r := Z.land val (u32 (u32 (Z.shiftl 1 exponent) - 1)) in
    (Z.lor (u32 (Z.shiftl (u32 (exponent + 1)) m_b)) mantissa, r).

(** The parameter pairs on which every shift of the codec is defined and
    no intermediate value leaves the 31 low bits: at least one exponent
    bit, and the largest decoded value, below [2 ^ (m_b + 2 ^ e_b - 1)],
    inside the word. *)
Definition codec_params_ok (m_b e_b : Z) : Prop :=
  0 <= m_b /\ 1 <= e_b /\ m_b + 2 ^ e_b <= 32.

(** ** Drop accumulator *)

Record testbed_metrics : Type := Build_testbed_metrics {
  drops_ecn : Z;
  drops_nonecn : Z
}.

Definition testbed_metrics_init : testbed_metrics :=
  {| drops_ecn := 0; drops_nonecn := 0 |}.

(** ** Network byte order and the IPv4 header

    A packet's network header is the list of its bytes in wire order.  A
    [__be16] object is the pair of its two bytes in memory order, so that
    [ntohs] and [htons] do not depend on the byte order of the host. *)

Definition be16 : Type := (Z * Z)%type.

Definition ntohs (x : be16) : Z := 256 * fst x + snd x.
Definition htons (v : Z) : be16 := (Z.shiftr (u16 v) 8, Z.land (u16 v) 255).

Definition load_be16 (p : list Z) (off : nat) : be16 :=
  (p !!! off, p !!! S off).
Definition store_be16 (p : list Z) (off : nat) (x : be16) : list Z :=
  <[S off := snd x]> (<[off := fst x]> p).

(** Modelled from the spec: the fields of [struct iphdr], whose
    declaration (linux/ip.h) is not part of the sources.  The spec names
    the type-of-service byte and the 16-bit identification and checksum
    fields in network byte order; they sit at their offsets in the IPv4
    header: version and header length share byte 0, [tos] is byte 1,
    [id] is bytes 4 and 5, [check] is bytes 10 and 11. *)
Definition iph_version (iph : list Z) : Z := Z.shiftr (iph !!! 0%nat) 4.
Definition iph_ihl (iph : list Z) : Z := Z.land (iph !!! 0%nat) 15.
Definition iph_tos (iph : list Z) : Z := iph !!! 1%nat.
Definition iph_id (iph : list Z) : be16 := load_be16 iph 4.
Definition iph_check (iph : list Z) : be16 := load_be16 iph 10.
Definition set_iph_id (iph : list Z) (x : be16) : list Z := store_be16 iph 4 x.
Definition set_iph_check (iph : list Z) (x : be16) : list Z :=
  store_be16 iph 10 x.

(** [sizeof(struct iphdr)] and [sizeof(struct ipv6hdr)]: the fixed parts
    of the two headers. *)
Definition sizeof_iphdr : Z := 20.
Definition sizeof_ipv6hdr : Z := 40.

(** A well-formed IPv4 header: bytes, version 4, a header length of at
    least five words, all of them present. *)
Definition iphdr_wf (iph : list Z) : Prop :=
  Forall (fun b => 0 <= b < 256) iph /\
  iph_version iph = 4 /\
  5 <= iph_ihl iph /\
  4 * iph_ihl iph <= Z.of_nat (length iph).

(** Modelled from the spec: the checksum of the whole header recomputed
    from scratch, which the sources leave to the kernel's [ip_fast_csum]
    and [csum_fold]: the one's-complement sum of the 16-bit big-endian
    words of the header, folded to 16 bits and complemented.  A header
    is checksum-valid when the result is zero. *)
Fixpoint csum_words (bs : list Z) : Z :=
  match bs with
  | hi :: lo :: rest => ntohs (hi, lo) + csum_words rest
  | [hi] => ntohs (hi, 0)
  | [] => 0
  end.

(** Modelled from the spec: folding a 32-bit sum to 16 bits with
    end-around carry and complementing it, the kernel's [csum_fold]. *)
Definition csum_fold (sum : Z) : Z :=
  let sum := Z.land sum 65535 + Z.shiftr sum 16 in
  let sum := Z.land sum 65535 + Z.shiftr sum 16 in
  u16 (Z.lnot sum).

(** Modelled from the spec: the checksum over the whole header, that is
    over the [4 * ihl] bytes its length field announces. *)
Definition ip_fast_csum (iph : list Z) : Z :=
  csum_fold (csum_words (take (Z.to_nat (4 * iph_ihl iph)) iph)).

(** ** Socket buffers

    Of a [struct sk_buff] the model keeps what the header reads: the
    protocol ([skb_protocol], as the ethertype in host order; [htons] is
    injective, so comparing ethertypes is comparing their [__be16]
    forms), the offset of the network header, and the bytes from the
    network header on. *)
Record sk_buff : Type := Build_sk_buff {
  skb_protocol : Z;
  skb_network_offset : Z;
  skb_network_data : list Z
}.

Definition ip_hdr (skb : sk_buff) : list Z := skb_network_data skb.
Definition set_ip_hdr (skb : sk_buff) (iph : list Z) : sk_buff :=
  {| skb_protocol := skb_protocol skb;
     skb_network_offset := skb_network_offset skb;
     skb_network_data := iph |}.

Section Testbed.

(** Constants of [net/inet_ecn.h] and [linux/if_ether.h] and the two
    buffer helpers of [linux/skbuff.h], none of which is part of the
    sources.  The helpers may move the buffer but never change a byte
    of the packet; they enter by their outcome: [pskb_may_pull] tells
    whether the first [len] bytes are available, and
    [skb_try_make_writable] returns zero when they could be made
    writable. *)
Variables INET_ECN_NOT_ECT INET_ECN_MASK : Z.
Variables ETH_P_IP ETH_P_IPV6 : Z.
Variable pskb_may_pull : sk_buff -> Z -> bool.
Variable skb_try_make_writable : sk_buff -> Z -> Z.

Definition testbed_inc_drop_count (testbed : testbed_metrics) (ect : Z)
  : testbed_metrics :=
  if ect =? INET_ECN_NOT_ECT then
    {| drops_ecn := drops_ecn testbed;
       drops_nonecn := u16 (drops_nonecn testbed + 1) |}
  else
    {| drops_ecn := u16 (drops_ecn testbed + 1);
       drops_nonecn := drops_nonecn testbed |}.

(** [testbed_write_drops] returns the codeword together with the
    accumulator it leaves behind. *)
Definition testbed_write_drops (testbed : testbed_metrics) (tos : Z)
  : Z * testbed_metrics :=
  if negb (Z.land tos INET_ECN_MASK =? 0) then
    let '(drops, remainder) :=
      int2fl (drops_ecn testbed) DROPS_M DROPS_E in
    (drops, {| drops_ecn := u16 remainder;
               drops_nonecn := drops_nonecn testbed |})
  else
    let '(drops, remainder) :=
      int2fl (drops_nonecn testbed) DROPS_M DROPS_E in
    (drops, {| drops_ecn := drops_ecn testbed;
               drops_nonecn := u16 remainder |}).

(** The value written to the identification field:
    [id = qdelay | (drops << 11)], converted to [u16]. *)
Definition testbed_id (qdelay drops : Z) : Z :=
  u16 (Z.lor qdelay (Z.shiftl drops 11)).

(** The incremental checksum update of [testbed_add_metrics_ipv4], the
    four statements on its local [check], from the old checksum and
    identification fields (both in host order) and the new
    identification value. *)
Definition testbed_check (old_check old_id id : Z) : Z :=
  let check := u32 (old_check + old_id) in
  let check :=
    if negb (Z.shiftr (u32 (check + 1)) 16 =? 0)
    then Z.land (u32 (check + 1)) 65535
    else check in
  let check := u32 (check - id) in
  u32 (check + Z.shiftr check 16).

Definition testbed_add_metrics_ipv4 (iph : list Z)
    (testbed : testbed_metrics) (qdelay : Z)
  : list Z * testbed_metrics :=
  let check0 := ntohs (iph_check iph) in
  let id0 := ntohs (iph_id iph) in
  let '(drops32, testbed') := testbed_write_drops testbed (iph_tos iph) in
  let drops := u16 drops32 in
  let id := testbed_id qdelay drops in
  let check := testbed_check check0 id0 id in
  (set_iph_check (set_iph_id iph (htons id)) (htons check), testbed').

Definition testbed_add_metrics (skb : sk_buff) (testbed : testbed_metrics)
    (qdelay_us : Z) : sk_buff * testbed_metrics :=
  let wlen := skb_network_offset skb in
  let qdelay := u16 (fst (int2fl qdelay_us QDELAY_M QDELAY_E)) in
  if skb_protocol skb =? ETH_P_IP then
    let wlen := wlen + sizeof_iphdr in
    if negb (pskb_may_pull skb wlen)
       || negb (skb_try_make_writable skb wlen =? 0)
    then (skb, testbed)
    else
      let '(iph, testbed') :=
        testbed_add_metrics_ipv4 (ip_hdr skb) testbed qdelay in
      (set_ip_hdr skb iph, testbed')
  else if skb_protocol skb =? ETH_P_IPV6 then
    let wlen := wlen + sizeof_ipv6hdr in
    if negb (pskb_may_pull skb wlen)
       || negb (skb_try_make_writable skb wlen =? 0)
    then (skb, testbed)
    else (skb, testbed)
  else (skb, testbed).

End Testbed.

(** * Properties *)

(** ** Fixed-width arithmetic *)

Lemma u32_small (x : Z) : 0 <= x < 2 ^ 32 -> u32 x = x.
Proof. intros H. unfold u32. now apply Z.mod_small. Qed.

Lemma u16_small (x : Z) : 0 <= x < 2 ^ 16 -> u16 x = x.
Proof. intros H. unfold u16. now apply Z.mod_small. Qed.

Lemma u16_range (x : Z) : 0 <= u16 x < 65536.
Proof. unfold u16. change (2 ^ 16) with 65536. apply Z.mod_pos_bound. lia. Qed.

Lemma pow2_pos (n : Z) : 0 <= n -> 0 < 2 ^ n.
Proof. intros H. apply Z.pow_pos_nonneg; lia. Qed.

Lemma pow2_le (a b : Z) : 0 <= a <= b -> 2 ^ a <= 2 ^ b.
Proof. intros H. apply Z.pow_le_mono_r; lia. Qed.

Lemma pow2_lt (a b : Z) : 0 <= a < b -> 2 ^ a < 2 ^ b.
Proof. intros H. apply Z.pow_lt_mono_r; lia. Qed.

Lemma pow2_succ (n : Z) : 0 <= n -> 2 ^ (n + 1) = 2 * 2 ^ n.
Proof. intros H. rewrite Z.pow_add_r by lia. lia. Qed.

Lemma shiftl_1_pow2 (n : Z) : 0 <= n -> Z.shiftl 1 n = 2 ^ n.
Proof. intros H. rewrite Z.shiftl_mul_pow2 by lia. lia. Qed.

Lemma land_pow2_pred (a n : Z) : 0 <= n -> Z.land a (2 ^ n - 1) = a mod 2 ^ n.
Proof.
  intros H. rewrite <- Z.land_ones by lia.
  now rewrite Z.ones_equiv, <- Z.sub_1_r.
Qed.

Lemma land_65535 (a : Z) : Z.land a 65535 = a mod 65536.
Proof. exact (land_pow2_pred a 16 ltac:(lia)). Qed.

(** A field placed above [n] bits and a value below [2 ^ n] combine by
    [Z.lor] as they do by addition. *)
Lemma lor_high_low (a b n : Z) :
  0 <= n -> 0 <= b < 2 ^ n -> Z.lor (a * 2 ^ n) b = a * 2 ^ n + b.
Proof.
  intros Hn Hb.
  assert (Hdisj : Z.land (a * 2 ^ n) b = 0).
  { apply Z.bits_inj'. intros k Hk. rewrite Z.land_spec, Z.bits_0.
    destruct (Z.lt_ge_cases k n) as [Hlt | Hge].
    - now rewrite Z.mul_pow2_bits_low by lia.
    - rewrite <- (Z.mod_small b (2 ^ n)) by lia.
      rewrite Z.mod_pow2_bits_high by lia. apply andb_false_r. }
  now rewrite <- Z.lxor_lor, <- Z.add_nocarry_lxor.
Qed.

(** Drops the conversions to [u32] of the goal from the inside out,
    where linear arithmetic shows the operand in range. *)
Ltac drop_u32 :=
  repeat match goal with
  | |- context [u32 ?x] =>
      lazymatch x with
      | context [u32 _] => fail
      | _ => rewrite (u32_small x) by (change (2 ^ 32) with 4294967296; lia)
      end
  end.

(** ** The codec on well-formed parameters *)

Section Codec.

Variables m_b e_b : Z.
Hypothesis Hok : codec_params_ok m_b e_b.

Lemma params_bounds :
  0 <= m_b <= 30 /\ 1 <= e_b <= 5 /\ 2 <= 2 ^ e_b /\ 1 <= 2 ^ m_b /\
  2 ^ (m_b + 2 ^ e_b - 1) <= 2 ^ 31.
Proof using Hok.
  destruct Hok as (Hm & He & Hsum).
  assert (H2 : 2 ^ 1 <= 2 ^ e_b) by (apply pow2_le; lia).
  change (2 ^ 1) with 2 in H2.
  assert (He5 : e_b <= 5).
  { destruct (Z.le_gt_cases e_b 5) as [|Hgt]; [assumption|].
    assert (2 ^ 6 <= 2 ^ e_b) by (apply pow2_le; lia).
    change (2 ^ 6) with 64 in *. lia. }
  pose proof (pow2_pos m_b Hm).
  repeat split; try lia.
  apply pow2_le. lia.
Qed.

Lemma pow2_m_bounds : 2 ^ m_b <= 2 ^ 30 /\ 2 ^ (m_b + 1) <= 2 ^ 31 /\
                      2 ^ (m_b + e_b) <= 2 ^ 31 /\ 2 ^ e_b <= 32.
Proof using Hok.
  destruct params_bounds as (Hm & He & H2 & H1 & Htop).
  destruct Hok as (_ & _ & Hsum).
  assert (e_b < 2 ^ e_b) by (apply Z.pow_gt_lin_r; lia).
  repeat split; try (apply pow2_le; lia). lia.
Qed.

Lemma int2fl_max_e_eq : int2fl_max_e e_b = 2 ^ e_b - 1.
Proof using Hok.
  destruct params_bounds as (Hm & He & H2 & H1 & Htop).
  destruct pow2_m_bounds as (_ & _ & _ & He32).
  unfold int2fl_max_e. rewrite shiftl_1_pow2 by lia.
  now drop_u32.
Qed.

Lemma int2fl_max_m_eq : int2fl_max_m m_b = 2 ^ m_b - 1.
Proof using Hok.
  destruct params_bounds as (Hm & He & H2 & H1 & Htop).
  destruct pow2_m_bounds as (Hm30 & _).
  change (2 ^ 30) with 1073741824 in Hm30.
  unfold int2fl_max_m. rewrite shiftl_1_pow2 by lia.
  now drop_u32.
Qed.

(** The largest decoded value: the all-ones mantissa with its implicit
    leading one, shifted by the largest exponent. *)
Lemma int2fl_max_fl_eq :
  int2fl_max_fl m_b e_b = (2 ^ (m_b + 1) - 1) * 2 ^ (2 ^ e_b - 2).
Proof using Hok.
  destruct params_bounds as (Hm & He & H2 & H1 & Htop).
  destruct pow2_m_bounds as (Hm30 & Hm31 & _ & He32).
  change (2 ^ 30) with 1073741824 in Hm30.
  change (2 ^ 31) with 2147483648 in *.
  unfold int2fl_max_fl. rewrite int2fl_max_e_eq, int2fl_max_m_eq.
  rewrite (Z.shiftl_mul_pow2 _ 1) by lia. change (2 ^ 1) with 2.
  rewrite (pow2_succ m_b) in * by lia.
  drop_u32.
  rewrite Z.shiftl_mul_pow2 by lia.
  replace (2 ^ e_b - 1 - 1) with (2 ^ e_b - 2) by lia.
  replace ((2 ^ m_b - 1) * 2 + 1) with (2 * 2 ^ m_b - 1) by lia.
  apply u32_small.
  assert (Hx : 0 < 2 ^ (2 ^ e_b - 2)) by (apply pow2_pos; lia).
  replace (m_b + 2 ^ e_b - 1) with ((m_b + 1) + (2 ^ e_b - 2)) in Htop by lia.
  rewrite Z.pow_add_r, pow2_succ in Htop by lia.
  change (2 ^ 32) with 4294967296. nia.
Qed.

Lemma codec_numeric_bounds :
  0 <= m_b /\ 1 <= e_b /\
  1 <= 2 ^ m_b <= 1073741824 /\ 2 <= 2 ^ e_b <= 32 /\
  2 ^ (m_b + e_b) = 2 ^ m_b * 2 ^ e_b /\
  2 ^ m_b * 2 ^ e_b <= 2147483648.
Proof using Hok.
  destruct params_bounds as (Hm & He & H2 & H1 & Htop).
  destruct pow2_m_bounds as (Hm30 & Hm31 & Hme & He32).
  rewrite Z.pow_add_r in * by lia.
  change (2 ^ 30) with 1073741824 in Hm30.
  change (2 ^ 31) with 2147483648 in Hme. lia.
Qed.

(** A decoded value never leaves the word: a mantissa with its leading
    one, shifted by at most the largest exponent. *)
Lemma decoded_bound (mant k : Z) :
  0 <= mant < 2 ^ m_b -> 0 <= k <= 2 ^ e_b - 2 ->
  0 <= (mant + 2 ^ m_b) * 2 ^ k < 2147483648.
Proof using Hok.
  intros Hmant Hk.
  destruct params_bounds as (Hm & He & H2 & H1 & Htop).
  assert (Hpk : 0 < 2 ^ k) by (apply pow2_pos; lia).
  assert (Hle : 2 ^ (m_b + 1 + k) <= 2 ^ (m_b + 2 ^ e_b - 1))
    by (apply pow2_le; lia).
  rewrite Z.pow_add_r, pow2_succ in Hle by lia.
  change (2 ^ 31) with 2147483648 in Htop. nia.
Qed.

Lemma fl2int_direct (fl : Z) :
  0 <= fl < 2 ^ (m_b + 1) -> fl2int fl m_b e_b = fl.
Proof using Hok.
  intros Hfl.
  destruct codec_numeric_bounds as (Hm & He & HM & HE & Hadd & Hprod).
  rewrite pow2_succ in Hfl by lia.
  unfold fl2int. rewrite shiftl_1_pow2 by lia. drop_u32.
  rewrite !Z.shiftl_mul_pow2 by lia. change (2 ^ 1) with 2. drop_u32.
  rewrite <- Hadd, land_pow2_pred by lia.
  assert (Hlt : 2 ^ (m_b + 1) <= 2 ^ (m_b + e_b)) by (apply pow2_le; lia).
  rewrite pow2_succ in Hlt by lia.
  rewrite Z.mod_small by lia.
  destruct (Z.ltb_spec fl (2 ^ m_b * 2)); [reflexivity | lia].
Qed.

Lemma fl2int_normal (ex mant : Z) :
  2 <= ex <= 2 ^ e_b - 1 -> 0 <= mant < 2 ^ m_b ->
  fl2int (ex * 2 ^ m_b + mant) m_b e_b = (mant + 2 ^ m_b) * 2 ^ (ex - 1).
Proof using Hok.
  intros Hex Hmant.
  destruct codec_numeric_bounds as (Hm & He & HM & HE & Hadd & Hprod).
  pose proof (decoded_bound mant (ex - 1) Hmant ltac:(lia)) as Hdec.
  unfold fl2int. rewrite shiftl_1_pow2 by lia. drop_u32.
  rewrite !Z.shiftl_mul_pow2 by lia. change (2 ^ 1) with 2. drop_u32.
  rewrite <- Hadd, !land_pow2_pred by lia.
  rewrite (Z.mod_small _ (2 ^ (m_b + e_b))) by (rewrite Hadd; nia).
  destruct (Z.ltb_spec (ex * 2 ^ m_b + mant) (2 ^ m_b * 2)); [nia |].
  rewrite Z.shiftr_div_pow2 by lia.
  replace (ex * 2 ^ m_b + mant) with (mant + ex * 2 ^ m_b) by lia.
  rewrite Z_mod_plus_full, Z_div_plus_full by lia.
  rewrite (Z.mod_small mant), (Z.div_small mant) by lia.
  rewrite Z.add_0_l. drop_u32.
  rewrite Z.shiftl_mul_pow2 by lia. now drop_u32.
Qed.

Lemma int2fl_direct (val : Z) :
  val < 2 ^ (m_b + 1) -> int2fl val m_b e_b = (val, 0).
Proof using Hok.
  intros Hval.
  destruct codec_numeric_bounds as (Hm & He & HM & HE & Hadd & Hprod).
  unfold int2fl. rewrite shiftl_1_pow2 by lia.
  rewrite pow2_succ in * by lia. drop_u32.
  destruct (Z.ltb_spec val (2 * 2 ^ m_b)); [reflexivity | lia].
Qed.

Lemma int2fl_saturate (val : Z) :
  0 <= val < 2 ^ 32 -> 2 ^ (m_b + 1) <= val ->
  int2fl_max_fl m_b e_b <= val ->
  int2fl val m_b e_b =
    (2 ^ (m_b + e_b) - 1, val - int2fl_max_fl m_b e_b).
Proof using Hok.
  intros Hval Hlow Hmax.
  destruct codec_numeric_bounds as (Hm & He & HM & HE & Hadd & Hprod).
  assert (Hfl : 0 <= int2fl_max_fl m_b e_b).
  { rewrite int2fl_max_fl_eq. rewrite pow2_succ by lia.
    assert (0 < 2 ^ (2 ^ e_b - 2)) by (apply pow2_pos; lia). nia. }
  unfold int2fl. rewrite !shiftl_1_pow2 by lia.
  rewrite pow2_succ in * by lia. rewrite Hadd.
  change (2 ^ 32) with 4294967296 in Hval. drop_u32.
  destruct (Z.ltb_spec val (2 * 2 ^ m_b)); [lia |].
  destruct (Z.leb_spec (int2fl_max_fl m_b e_b) val); [| lia].
  now drop_u32.
Qed.

(** Between the direct range and the largest decoded value the
    standard case runs: the exponent is the position of the leading
    one above the mantissa, the mantissa the [m_b] bits below the
    leading one, the remainder the bits below the mantissa. *)
Lemma int2fl_normal (val : Z) :
  2 ^ (m_b + 1) <= val < int2fl_max_fl m_b e_b ->
  let x := Z.log2 val - m_b in
  1 <= x <= 2 ^ e_b - 2 /\
  2 ^ m_b <= val / 2 ^ x < 2 ^ (m_b + 1) /\
  int2fl val m_b e_b =
    ((x + 1) * 2 ^ m_b + (val / 2 ^ x - 2 ^ m_b), val mod 2 ^ x).
Proof using Hok.
  intros Hval x.
  destruct codec_numeric_bounds as (Hm & He & HM & HE & Hadd & Hprod).
  destruct Hok as (_ & _ & Hsum).
  assert (Hpos : 0 < val).
  { pose proof (pow2_pos (m_b + 1)). lia. }
  assert (Hlow : m_b + 1 <= Z.log2 val).
  { apply Z.log2_le_pow2; lia. }
  assert (Hhigh : Z.log2 val < m_b + 1 + (2 ^ e_b - 2)).
  { apply Z.log2_lt_pow2; [lia |].
    rewrite Z.pow_add_r by lia. rewrite int2fl_max_fl_eq in Hval.
    assert (0 < 2 ^ (2 ^ e_b - 2)) by (apply pow2_pos; lia). nia. }
  assert (Hx : 1 <= x <= 2 ^ e_b - 2) by (unfold x; lia).
  destruct (Z.log2_spec val Hpos) as [Hl Hu].
  assert (Hpx : 0 < 2 ^ x) by (apply pow2_pos; lia).
  assert (HL : 2 ^ Z.log2 val = 2 ^ m_b * 2 ^ x).
  { rewrite <- Z.pow_add_r by lia. f_equal. unfold x. lia. }
  assert (Hq : 2 ^ m_b <= val / 2 ^ x < 2 ^ (m_b + 1)).
  { split.
    - apply Z.div_le_lower_bound; lia.
    - apply Z.div_lt_upper_bound; [lia |].
      rewrite <- Z.add_1_r, Z.pow_add_r in Hu by lia.
      rewrite pow2_succ by lia. lia. }
  split; [exact Hx | split; [exact Hq |]].
  assert (Hx32 : 2 ^ x < 2 ^ 31) by (apply pow2_lt; lia).
  assert (Hv32 : val < 2 ^ 31).
  { eapply Z.lt_le_trans; [exact Hu |]. apply pow2_le. lia. }
  change (2 ^ 31) with 2147483648 in *.
  rewrite pow2_succ in * by lia.
  unfold int2fl, builtin_clz. fold x.
  rewrite !shiftl_1_pow2, pow2_succ by lia. drop_u32.
  destruct (Z.ltb_spec val (2 * 2 ^ m_b)); [lia |].
  destruct (Z.leb_spec (int2fl_max_fl m_b e_b) val); [lia |].
  replace (32 - (31 - Z.log2 val) - 1 - m_b) with x by (unfold x; lia).
  rewrite shiftl_1_pow2 by lia. drop_u32.
  rewrite !land_pow2_pred, Z.shiftr_div_pow2, Z.shiftl_mul_pow2 by lia.
  assert (Hmant : (val / 2 ^ x) mod 2 ^ m_b = val / 2 ^ x - 2 ^ m_b).
  { symmetry. apply (Z.mod_unique _ _ 1); lia. }
  assert (Hcw : 0 <= (x + 1) * 2 ^ m_b < 2147483648) by nia.
  rewrite Hmant. drop_u32. rewrite lor_high_low by lia. reflexivity.
Qed.

(** The all-ones codeword decodes to the largest decoded value. *)
Lemma fl2int_all_ones :
  fl2int (2 ^ (m_b + e_b) - 1) m_b e_b = int2fl_max_fl m_b e_b.
Proof using Hok.
  destruct codec_numeric_bounds as (Hm & He & HM & HE & Hadd & Hprod).
  rewrite int2fl_max_fl_eq.
  destruct (Z.eq_dec e_b 1) as [He1 | Hne].
  - assert (HE1 : 2 ^ e_b = 2) by now rewrite He1.
    rewrite HE1. change (2 - 2) with 0. rewrite Z.pow_0_r, Z.mul_1_r.
    replace (m_b + e_b) with (m_b + 1) by lia.
    apply fl2int_direct. pose proof (pow2_pos (m_b + 1)). lia.
  - assert (H4 : 2 ^ 2 <= 2 ^ e_b) by (apply pow2_le; lia).
    change (2 ^ 2) with 4 in H4.
    replace (2 ^ (m_b + e_b) - 1)
      with ((2 ^ e_b - 1) * 2 ^ m_b + (2 ^ m_b - 1)) by (rewrite Hadd; lia).
    rewrite fl2int_normal by lia.
    replace (2 ^ e_b - 1 - 1) with (2 ^ e_b - 2) by lia.
    rewrite pow2_succ by lia. f_equal. lia.
Qed.

Lemma int2fl_max_fl_pos : 0 < int2fl_max_fl m_b e_b.
Proof using Hok.
  destruct codec_numeric_bounds as (Hm & He & HM & HE & Hadd & Hprod).
  rewrite int2fl_max_fl_eq, pow2_succ by lia.
  assert (0 < 2 ^ (2 ^ e_b - 2)) by (apply pow2_pos; lia). nia.
Qed.

(** At or above the largest decoded value the encoder answers the
    all-ones codeword and the excess, whichever branch it takes. *)
Lemma int2fl_at_or_above_max (val : Z) :
  0 <= val < 2 ^ 32 -> int2fl_max_fl m_b e_b <= val ->
  int2fl val m_b e_b =
    (2 ^ (m_b + e_b) - 1, val - int2fl_max_fl m_b e_b).
Proof using Hok.
  intros Hval Hmax.
  destruct (Z.lt_ge_cases val (2 ^ (m_b + 1))) as [Hlt | Hge].
  - destruct codec_numeric_bounds as (Hm & He & HM & HE & Hadd & Hprod).
    rewrite int2fl_direct by assumption.
    rewrite int2fl_max_fl_eq in *.
    destruct (Z.eq_dec e_b 1) as [He1 | Hne].
    + assert (HE1 : 2 ^ e_b = 2) by now rewrite He1.
      rewrite HE1 in *. change (2 - 2) with 0 in *.
      rewrite Z.pow_0_r, Z.mul_1_r in *.
      replace (m_b + e_b) with (m_b + 1) by lia. f_equal; lia.
    + exfalso.
      assert (H2 : 2 ^ 1 <= 2 ^ (2 ^ e_b - 2)).
      { apply pow2_le. assert (2 ^ 2 <= 2 ^ e_b) by (apply pow2_le; lia).
        change (2 ^ 2) with 4 in *. lia. }
      change (2 ^ 1) with 2 in H2. rewrite pow2_succ in * by lia. nia.
  - now apply int2fl_saturate.
Qed.

(** Decoding what the encoder produced and adding the remainder gives
    the value back, on the whole 32-bit range. *)
Lemma codec_roundtrip (val : Z) :
  0 <= val < 2 ^ 32 ->
  fl2int (fst (int2fl val m_b e_b)) m_b e_b + snd (int2fl val m_b e_b)
  = val.
Proof using Hok.
  intros Hval.
  destruct (Z.lt_ge_cases val (2 ^ (m_b + 1))) as [Hlt | Hge].
  - rewrite int2fl_direct by assumption. cbn [fst snd].
    rewrite fl2int_direct by lia. lia.
  - destruct (Z.le_gt_cases (int2fl_max_fl m_b e_b) val) as [Hsat | Hin].
    + rewrite int2fl_saturate by assumption. cbn [fst snd].
      rewrite fl2int_all_ones. lia.
    + destruct (int2fl_normal val (conj Hge Hin)) as (Hx & Hq & ->).
      cbn [fst snd]. set (x := Z.log2 val - m_b) in *.
      assert (Hpx : 0 < 2 ^ x) by (apply pow2_pos; lia).
      destruct Hok as (Hm & _ & _). rewrite pow2_succ in Hq by lia.
      rewrite fl2int_normal by lia.
      replace (x + 1 - 1) with x by lia.
      replace (val / 2 ^ x - 2 ^ m_b + 2 ^ m_b) with (val / 2 ^ x) by lia.
      pose proof (Z.div_mod val (2 ^ x)). lia.
Qed.

Lemma int2fl_remainder_nonneg (val : Z) :
  0 <= val < 2 ^ 32 -> 0 <= snd (int2fl val m_b e_b).
Proof using Hok.
  intros Hval.
  destruct (Z.lt_ge_cases val (2 ^ (m_b + 1))) as [Hlt | Hge].
  - rewrite int2fl_direct by assumption. cbn. lia.
  - destruct (Z.le_gt_cases (int2fl_max_fl m_b e_b) val) as [Hsat | Hin].
    + rewrite int2fl_saturate by assumption. cbn [snd]. lia.
    + destruct (int2fl_normal val (conj Hge Hin)) as (Hx & Hq & ->).
      cbn [snd]. apply Z.mod_pos_bound, pow2_pos. lia.
Qed.

(** Every codeword fits in [m_b + e_b] bits. *)
Lemma int2fl_codeword_range (val : Z) :
  0 <= val < 2 ^ 32 -> 0 <= fst (int2fl val m_b e_b) < 2 ^ (m_b + e_b).
Proof using Hok.
  intros Hval.
  destruct codec_numeric_bounds as (Hm & He & HM & HE & Hadd & Hprod).
  destruct (Z.lt_ge_cases val (2 ^ (m_b + 1))) as [Hlt | Hge].
  - rewrite int2fl_direct by assumption. cbn [fst].
    assert (2 ^ (m_b + 1) <= 2 ^ (m_b + e_b)) by (apply pow2_le; lia). lia.
  - destruct (Z.le_gt_cases (int2fl_max_fl m_b e_b) val) as [Hsat | Hin].
    + rewrite int2fl_saturate by assumption. cbn [fst]. rewrite Hadd. lia.
    + destruct (int2fl_normal val (conj Hge Hin)) as (Hx & Hq & ->).
      cbn [fst]. rewrite pow2_succ in Hq by lia. rewrite Hadd. nia.
Qed.

End Codec.

Lemma drops_params_ok : codec_params_ok DROPS_M DROPS_E.
Proof. unfold codec_params_ok, DROPS_M, DROPS_E. cbn. lia. Qed.

Lemma qdelay_params_ok : codec_params_ok QDELAY_M QDELAY_E.
Proof. unfold codec_params_ok, QDELAY_M, QDELAY_E. cbn. lia. Qed.

(** ** Claims about the codec *)

(** C2: for every unsigned value [v] within the representable range of a
    parameter pair (up to the largest decoded value [int2fl_max_fl]),
    decoding the codeword that [int2fl] returns and adding the remainder
    it reports gives [v] back exactly.  The pairs (2,3) and (7,4) of the
    header are such pairs ([drops_params_ok], [qdelay_params_ok]). *)
Theorem codec_roundtrip_in_range (m_b e_b v : Z) :
  codec_params_ok m_b e_b ->
  0 <= v <= int2fl_max_fl m_b e_b ->
  fl2int (fst (int2fl v m_b e_b)) m_b e_b + snd (int2fl v m_b e_b) = v.
Proof.
  intros Hok Hv. apply codec_roundtrip; [assumption |].
  pose proof (decoded_bound m_b e_b Hok (2 ^ m_b - 1) (2 ^ e_b - 2)) as Hb.
  destruct (codec_numeric_bounds m_b e_b Hok) as (Hm & He & HM & HE & _).
  rewrite (int2fl_max_fl_eq m_b e_b Hok), pow2_succ in Hv by lia.
  replace (2 ^ m_b - 1 + 2 ^ m_b) with (2 * 2 ^ m_b - 1) in Hb by lia.
  change (2 ^ 32) with 4294967296. lia.
Qed.

Lemma codec_roundtrip_in_range_witness :
  codec_params_ok 2 3 /\ 0 <= 100 <= int2fl_max_fl 2 3 /\
  codec_params_ok 7 4 /\ 0 <= 70000 <= int2fl_max_fl 7 4 /\
  fl2int (fst (int2fl 100 2 3)) 2 3 + snd (int2fl 100 2 3) = 100 /\
  fl2int (fst (int2fl 70000 7 4)) 7 4 + snd (int2fl 70000 7 4) = 70000.
Proof.
  assert (H23 : codec_params_ok 2 3) by (unfold codec_params_ok; lia).
  assert (H74 : codec_params_ok 7 4) by (unfold codec_params_ok; lia).
  assert (R23 : 0 <= 100 <= int2fl_max_fl 2 3) by (vm_compute; split; discriminate).
  assert (R74 : 0 <= 70000 <= int2fl_max_fl 7 4) by (vm_compute; split; discriminate).
  exact (conj H23 (conj R23 (conj H74 (conj R74
           (conj (codec_roundtrip_in_range 2 3 100 H23 R23)
                 (codec_roundtrip_in_range 7 4 70000 H74 R74)))))).
Defined.

(** C3: at or above the largest decoded value the encoder saturates: it
    returns the all-ones codeword [(1 << (m_b + e_b)) - 1] and the
    remainder [v - max_fl], for every parameter pair; for the (2,3)
    codec the largest decoded value is 448 and the codeword is 31. *)
Theorem int2fl_saturates (m_b e_b v : Z) :
  codec_params_ok m_b e_b ->
  0 <= v < 2 ^ 32 ->
  int2fl_max_fl m_b e_b <= v ->
  int2fl v m_b e_b =
    (Z.shiftl 1 (m_b + e_b) - 1, v - int2fl_max_fl m_b e_b) /\
  int2fl_max_fl DROPS_M DROPS_E = 448 /\
  Z.shiftl 1 (DROPS_M + DROPS_E) - 1 = 31 /\
  (448 <= v -> int2fl v DROPS_M DROPS_E = (31, v - 448)).
Proof.
  intros Hok Hv Hmax. split; [| split; [reflexivity | split; [reflexivity |]]].
  - destruct Hok as (Hm & He & Hsum). rewrite shiftl_1_pow2 by lia.
    apply int2fl_at_or_above_max; [repeat split |..]; assumption.
  - intros H448.
    apply (int2fl_at_or_above_max _ _ drops_params_ok v Hv H448).
Qed.

Lemma int2fl_saturates_witness :
  codec_params_ok 2 3 /\ 0 <= 1000 < 2 ^ 32 /\ int2fl_max_fl 2 3 <= 1000 /\
  int2fl 1000 2 3 = (31, 552) /\ int2fl 448 2 3 = (31, 0).
Proof.
  assert (H23 : codec_params_ok 2 3) by (unfold codec_params_ok; lia).
  assert (R : 0 <= 1000 < 2 ^ 32) by (vm_compute; split; [discriminate | reflexivity]).
  assert (M : int2fl_max_fl 2 3 <= 1000) by (vm_compute; discriminate).
  exact (conj H23 (conj R (conj M
           (conj (proj1 (int2fl_saturates 2 3 1000 H23 R M)) eq_refl)))).
Defined.

(** C8: every value strictly below [2 ^ (m_b + 1)] is its own codeword,
    with remainder 0; for the (2,3) codec the direct range is [v < 8],
    and 0 and 7 encode to themselves with remainder 0. *)
Theorem int2fl_direct_range (m_b e_b v : Z) :
  codec_params_ok m_b e_b ->
  0 <= v < 2 ^ (m_b + 1) ->
  int2fl v m_b e_b = (v, 0) /\
  2 ^ (DROPS_M + 1) = 8 /\
  int2fl 0 DROPS_M DROPS_E = (0, 0) /\
  int2fl 7 DROPS_M DROPS_E = (7, 0).
Proof.
  intros Hok Hv. split; [| repeat split].
  apply int2fl_direct; [assumption | lia].
Qed.

Lemma int2fl_direct_range_witness :
  codec_params_ok 7 4 /\ 0 <= 255 < 2 ^ (7 + 1) /\ int2fl 255 7 4 = (255, 0).
Proof.
  assert (H74 : codec_params_ok 7 4) by (unfold codec_params_ok; lia).
  assert (R : 0 <= 255 < 2 ^ (7 + 1)) by (vm_compute; split; [discriminate | reflexivity]).
  exact (conj H74 (conj R (proj1 (int2fl_direct_range 7 4 255 H74 R)))).
Defined.

(** C6: for every 32-bit unsigned value, also beyond the representable
    range, and for both parameter pairs of the header, decoding the
    codeword that [int2fl] returns never exceeds the value. *)
Theorem fl2int_int2fl_le (v : Z) :
  0 <= v < 2 ^ 32 ->
  fl2int (fst (int2fl v DROPS_M DROPS_E)) DROPS_M DROPS_E <= v /\
  fl2int (fst (int2fl v QDELAY_M QDELAY_E)) QDELAY_M QDELAY_E <= v.
Proof.
  intros Hv. split.
  - pose proof (codec_roundtrip _ _ drops_params_ok v Hv).
    pose proof (int2fl_remainder_nonneg _ _ drops_params_ok v Hv). lia.
  - pose proof (codec_roundtrip _ _ qdelay_params_ok v Hv).
    pose proof (int2fl_remainder_nonneg _ _ qdelay_params_ok v Hv). lia.
Qed.

Lemma fl2int_int2fl_le_witness :
  0 <= 4294967295 < 2 ^ 32 /\
  fl2int (fst (int2fl 4294967295 DROPS_M DROPS_E)) DROPS_M DROPS_E
    <= 4294967295 /\
  fl2int (fst (int2fl 4294967295 QDELAY_M QDELAY_E)) QDELAY_M QDELAY_E
    <= 4294967295.
Proof.
  assert (R : 0 <= 4294967295 < 2 ^ 32) by (vm_compute; split; [discriminate | reflexivity]).
  split; [exact R | exact (fl2int_int2fl_le 4294967295 R)].
Defined.

(** C10: for the two parameter pairs of the header the reconstruction
    identity holds on all of [u32], not only inside the representable
    range: when the encoder saturates the remainder is [v - max_fl], and
    the all-ones codeword decodes to exactly [max_fl]. *)
Theorem codec_roundtrip_all_u32 (v : Z) :
  0 <= v < 2 ^ 32 ->
  (fl2int (fst (int2fl v DROPS_M DROPS_E)) DROPS_M DROPS_E
     + snd (int2fl v DROPS_M DROPS_E) = v /\
   fl2int (fst (int2fl v QDELAY_M QDELAY_E)) QDELAY_M QDELAY_E
     + snd (int2fl v QDELAY_M QDELAY_E) = v) /\
  (int2fl_max_fl DROPS_M DROPS_E <= v ->
   int2fl v DROPS_M DROPS_E = (31, v - int2fl_max_fl DROPS_M DROPS_E)) /\
  (int2fl_max_fl QDELAY_M QDELAY_E <= v ->
   int2fl v QDELAY_M QDELAY_E = (2047, v - int2fl_max_fl QDELAY_M QDELAY_E)) /\
  fl2int 31 DROPS_M DROPS_E = int2fl_max_fl DROPS_M DROPS_E /\
  fl2int 2047 QDELAY_M QDELAY_E = int2fl_max_fl QDELAY_M QDELAY_E.
Proof.
  intros Hv. split; [split | split; [| split; [| split; reflexivity]]].
  - apply codec_roundtrip; [exact drops_params_ok | assumption].
  - apply codec_roundtrip; [exact qdelay_params_ok | assumption].
  - intros Hmax.
    apply (int2fl_at_or_above_max _ _ drops_params_ok v Hv Hmax).
  - intros Hmax.
    apply (int2fl_at_or_above_max _ _ qdelay_params_ok v Hv Hmax).
Qed.

Lemma codec_roundtrip_all_u32_witness :
  0 <= 4294967295 < 2 ^ 32 /\
  fl2int (fst (int2fl 4294967295 DROPS_M DROPS_E)) DROPS_M DROPS_E
    + snd (int2fl 4294967295 DROPS_M DROPS_E) = 4294967295 /\
  fl2int (fst (int2fl 4294967295 QDELAY_M QDELAY_E)) QDELAY_M QDELAY_E
    + snd (int2fl 4294967295 QDELAY_M QDELAY_E) = 4294967295.
Proof.
  assert (R : 0 <= 4294967295 < 2 ^ 32) by (vm_compute; split; [discriminate | reflexivity]).
  split; [exact R | exact (proj1 (codec_roundtrip_all_u32 4294967295 R))].
Defined.

(** ** Claims about the drop accumulator *)

Lemma fl2int_nonneg (fl m_b e_b : Z) : 0 <= fl2int fl m_b e_b.
Proof.
  unfold fl2int.
  match goal with |- context [if ?c then _ else _] => destruct c end.
  - apply Z.land_nonneg. right. unfold u32. apply Z.mod_pos_bound.
    now apply pow2_pos.
  - unfold u32 at 1. apply Z.mod_pos_bound. now apply pow2_pos.
Qed.

(** The remainder of a 16-bit counter is again a 16-bit counter, so the
    conversion on the way back into the accumulator loses nothing. *)
Lemma drops_remainder_u16 (c : Z) :
  0 <= c < 65536 ->
  u16 (snd (int2fl c DROPS_M DROPS_E)) = snd (int2fl c DROPS_M DROPS_E).
Proof.
  intros Hc.
  assert (Hc32 : 0 <= c < 2 ^ 32) by (change (2 ^ 32) with 4294967296; lia).
  pose proof (codec_roundtrip _ _ drops_params_ok c Hc32).
  pose proof (int2fl_remainder_nonneg _ _ drops_params_ok c Hc32).
  pose proof (fl2int_nonneg (fst (int2fl c DROPS_M DROPS_E)) DROPS_M DROPS_E).
  apply u16_small. change (2 ^ 16) with 65536. lia.
Qed.

(** C9: [testbed_inc_drop_count] increments exactly one counter, the
    non-ECN one when the codepoint is Not-ECT and the ECN one otherwise,
    leaves the other counter as it was, and wraps from 65535 to 0. *)
Theorem testbed_inc_drop_count_spec
    (INET_ECN_NOT_ECT : Z) (testbed : testbed_metrics) (ect : Z) :
  0 <= drops_ecn testbed < 65536 ->
  0 <= drops_nonecn testbed < 65536 ->
  let testbed' := testbed_inc_drop_count INET_ECN_NOT_ECT testbed ect in
  (ect = INET_ECN_NOT_ECT ->
     drops_ecn testbed' = drops_ecn testbed /\
     drops_nonecn testbed' =
       if drops_nonecn testbed =? 65535 then 0
       else drops_nonecn testbed + 1) /\
  (ect <> INET_ECN_NOT_ECT ->
     drops_nonecn testbed' = drops_nonecn testbed /\
     drops_ecn testbed' =
       if drops_ecn testbed =? 65535 then 0 else drops_ecn testbed + 1).
Proof.
  intros Hecn Hnon testbed'. subst testbed'. unfold testbed_inc_drop_count.
  assert (Hwrap : forall c, 0 <= c < 65536 ->
            u16 (c + 1) = if c =? 65535 then 0 else c + 1).
  { intros c Hc. destruct (Z.eqb_spec c 65535) as [-> | Hne].
    - reflexivity.
    - apply u16_small. change (2 ^ 16) with 65536. lia. }
  split; intros Hect.
  - rewrite (proj2 (Z.eqb_eq _ _) Hect). cbn. split; [reflexivity |].
    now apply Hwrap.
  - rewrite (proj2 (Z.eqb_neq _ _) Hect). cbn. split; [reflexivity |].
    now apply Hwrap.
Qed.

Lemma testbed_inc_drop_count_spec_witness :
  let full := {| drops_ecn := 65535; drops_nonecn := 65535 |} in
  0 <= drops_ecn full < 65536 /\ 0 <= drops_nonecn full < 65536 /\
  testbed_inc_drop_count 0 full 0 = {| drops_ecn := 65535; drops_nonecn := 0 |} /\
  drops_nonecn (testbed_inc_drop_count 0 full 0) = 0 /\
  drops_ecn (testbed_inc_drop_count 0 full 2) = 0.
Proof.
  intros full.
  assert (R1 : 0 <= drops_ecn full < 65536) by (cbn; lia).
  assert (R2 : 0 <= drops_nonecn full < 65536) by (cbn; lia).
  pose proof (testbed_inc_drop_count_spec 0 full 0 R1 R2) as H0.
  pose proof (testbed_inc_drop_count_spec 0 full 2 R1 R2) as H2.
  cbv zeta in H0, H2.
  exact (conj R1 (conj R2 (conj eq_refl
           (conj (proj2 (proj1 H0 eq_refl))
                 (proj2 (proj2 H2 ltac:(discriminate))))))).
Defined.

(** C4: [testbed_write_drops] returns the (2,3) codeword of the selected
    counter and leaves the encode remainder in it, the other counter
    untouched; so it is not idempotent: from a selected counter of 100
    the first call returns the codeword of 100 and leaves its remainder,
    and a second call right after returns the codeword of that
    remainder, a different one. *)
Theorem testbed_write_drops_not_idempotent
    (INET_ECN_MASK tos : Z) (testbed : testbed_metrics) :
  0 <= drops_ecn testbed < 65536 ->
  0 <= drops_nonecn testbed < 65536 ->
  let ecn := negb (Z.land tos INET_ECN_MASK =? 0) in
  let selected t := if ecn then drops_ecn t else drops_nonecn t in
  let other t := if ecn then drops_nonecn t else drops_ecn t in
  let first := testbed_write_drops INET_ECN_MASK testbed tos in
  let second := testbed_write_drops INET_ECN_MASK (snd first) tos in
  (fst first = fst (int2fl (selected testbed) DROPS_M DROPS_E) /\
   selected (snd first) = snd (int2fl (selected testbed) DROPS_M DROPS_E) /\
   other (snd first) = other testbed) /\
  (selected testbed = 100 ->
   fst first = fst (int2fl 100 DROPS_M DROPS_E) /\
   selected (snd first) = snd (int2fl 100 DROPS_M DROPS_E) /\
   fst second =
     fst (int2fl (snd (int2fl 100 DROPS_M DROPS_E)) DROPS_M DROPS_E) /\
   fst second <> fst first /\
   fst first = 22 /\ selected (snd first) = 4 /\ fst second = 4).
Proof.
  intros Hecn Hnon ecn selected other first second.
  assert (Hfirst : fst first = fst (int2fl (selected testbed) DROPS_M DROPS_E)
                   /\ selected (snd first)
                      = snd (int2fl (selected testbed) DROPS_M DROPS_E)
                   /\ other (snd first) = other testbed).
  { subst first selected other. unfold testbed_write_drops. fold ecn.
    destruct ecn.
    - pose proof (drops_remainder_u16 _ Hecn) as Hr.
      destruct (int2fl (drops_ecn testbed) DROPS_M DROPS_E) as [cw r].
      cbn in *. auto.
    - pose proof (drops_remainder_u16 _ Hnon) as Hr.
      destruct (int2fl (drops_nonecn testbed) DROPS_M DROPS_E) as [cw r].
      cbn in *. auto. }
  split; [exact Hfirst |].
  intros H100. destruct Hfirst as (Hcw & Hsel & _).
  rewrite H100 in Hcw, Hsel.
  assert (Hsecond : fst second = fst (int2fl (selected (snd first))
                                        DROPS_M DROPS_E)).
  { subst second selected. unfold testbed_write_drops at 1. fold ecn.
    destruct ecn.
    - destruct (int2fl (drops_ecn (snd first)) DROPS_M DROPS_E); reflexivity.
    - destruct (int2fl (drops_nonecn (snd first)) DROPS_M DROPS_E);
        reflexivity. }
  rewrite Hsel in Hsecond. rewrite Hsecond, Hcw, Hsel.
  repeat split. discriminate.
Qed.

Lemma testbed_write_drops_not_idempotent_witness :
  let tb := {| drops_ecn := 100; drops_nonecn := 0 |} in
  0 <= drops_ecn tb < 65536 /\ 0 <= drops_nonecn tb < 65536 /\
  fst (testbed_write_drops 3 tb 2) = 22 /\
  drops_ecn (snd (testbed_write_drops 3 tb 2)) = 4 /\
  fst (testbed_write_drops 3 (snd (testbed_write_drops 3 tb 2)) 2) = 4.
Proof.
  intros tb.
  assert (R1 : 0 <= drops_ecn tb < 65536) by (cbn; lia).
  assert (R2 : 0 <= drops_nonecn tb < 65536) by (cbn; lia).
  pose proof (proj2 (testbed_write_drops_not_idempotent 3 2 tb R1 R2) eq_refl)
    as (_ & _ & _ & _ & H22 & H4 & H44).
  exact (conj R1 (conj R2 (conj H22 (conj H4 H44)))).
Defined.

(** ** Claims about the dispatch *)

(** C7: [testbed_add_metrics] changes neither the packet nor the
    accumulator when the packet is IPv6, when its protocol is neither
    IPv4 nor IPv6, or when the IPv4 header cannot be pulled or made
    writable; the function is total, so it returns in each of them. *)
Theorem testbed_add_metrics_noop
    (INET_ECN_MASK ETH_P_IP ETH_P_IPV6 : Z)
    (pskb_may_pull : sk_buff -> Z -> bool)
    (skb_try_make_writable : sk_buff -> Z -> Z)
    (skb : sk_buff) (testbed : testbed_metrics) (qdelay_us : Z) :
  ETH_P_IP <> ETH_P_IPV6 ->
  skb_protocol skb = ETH_P_IPV6 \/
  (skb_protocol skb <> ETH_P_IP /\ skb_protocol skb <> ETH_P_IPV6) \/
  (skb_protocol skb = ETH_P_IP /\
   (pskb_may_pull skb (skb_network_offset skb + sizeof_iphdr) = false \/
    skb_try_make_writable skb (skb_network_offset skb + sizeof_iphdr) <> 0)) ->
  testbed_add_metrics INET_ECN_MASK ETH_P_IP ETH_P_IPV6
    pskb_may_pull skb_try_make_writable skb testbed qdelay_us
  = (skb, testbed).
Proof.
  intros Hdistinct Hcase. unfold testbed_add_metrics.
  destruct Hcase as [Hv6 | [[Hn4 Hn6] | [Hv4 Hfail]]].
  - rewrite Hv6, (proj2 (Z.eqb_neq _ _) (not_eq_sym Hdistinct)), Z.eqb_refl.
    now destruct (negb _ || negb _).
  - now rewrite (proj2 (Z.eqb_neq _ _) Hn4), (proj2 (Z.eqb_neq _ _) Hn6).
  - rewrite Hv4, Z.eqb_refl. destruct Hfail as [Hpull | Hwr].
    + now rewrite Hpull.
    + rewrite (proj2 (Z.eqb_neq _ _) Hwr). cbn [negb].
      now rewrite orb_true_r.
Qed.

Lemma testbed_add_metrics_noop_witness :
  let skb6 := {| skb_protocol := 34525; skb_network_offset := 14;
                 skb_network_data := [96; 0; 0; 0] |} in
  let tb := {| drops_ecn := 9; drops_nonecn := 3 |} in
  2048 <> 34525 /\
  skb_protocol skb6 = 34525 /\
  testbed_add_metrics 3 2048 34525 (fun _ _ => true) (fun _ _ => 0)
    skb6 tb 5000 = (skb6, tb).
Proof.
  intros skb6 tb.
  assert (Hd : 2048 <> 34525) by discriminate.
  exact (conj Hd (conj eq_refl
           (testbed_add_metrics_noop 3 2048 34525 (fun _ _ => true)
              (fun _ _ => 0) skb6 tb 5000 Hd (or_introl eq_refl)))).
Defined.

(** ** The identification field and the checksum *)

Lemma ntohs_htons (v : Z) : ntohs (htons v) = u16 v.
Proof.
  unfold ntohs, htons. cbn [fst snd].
  rewrite Z.shiftr_div_pow2 by lia. change 255 with (2 ^ 8 - 1).
  rewrite land_pow2_pred by lia. change (2 ^ 8) with 256.
  pose proof (Z.div_mod (u16 v) 256). lia.
Qed.

Lemma testbed_id_range (qdelay drops : Z) :
  0 <= testbed_id qdelay drops < 65536.
Proof. apply u16_range. Qed.

(** With an 11-bit delay codeword and a 5-bit drop codeword the
    identification value is their concatenation. *)
Lemma testbed_id_pack (qdelay drops : Z) :
  0 <= qdelay < 2048 -> 0 <= drops < 32 ->
  testbed_id qdelay drops = drops * 2048 + qdelay.
Proof.
  intros Hq Hd. unfold testbed_id.
  rewrite Z.shiftl_mul_pow2, Z.lor_comm by lia.
  rewrite lor_high_low by (change (2 ^ 11) with 2048; lia).
  change (2 ^ 11) with 2048. apply u16_small.
  change (2 ^ 16) with 65536. lia.
Qed.

(** The first step of the update adds the two old fields with an
    end-around carry. *)
Lemma testbed_check_add (c : Z) :
  0 <= c <= 131070 ->
  (if negb (Z.shiftr (u32 (c + 1)) 16 =? 0)
   then Z.land (u32 (c + 1)) 65535 else c)
  = if c <? 65535 then c else c - 65535.
Proof.
  intros Hc. rewrite (u32_small (c + 1))
    by (change (2 ^ 32) with 4294967296; lia).
  rewrite Z.shiftr_div_pow2, land_65535 by lia. change (2 ^ 16) with 65536.
  destruct (Z.ltb_spec c 65535) as [Hlt | Hge].
  - rewrite Z.div_small by lia. reflexivity.
  - assert (Hq : (c + 1) / 65536 = 1)
      by (symmetry; apply (Z.div_unique _ _ _ (c - 65535)); lia).
    rewrite Hq. cbn [Z.eqb negb].
    symmetry. apply (Z.mod_unique _ _ 1); lia.
Qed.

(** The second step subtracts the new value and folds the borrow
    back. *)
Lemma testbed_check_sub (c id : Z) :
  0 <= c <= 65535 -> 0 <= id < 65536 ->
  u16 (u32 (u32 (c - id) + Z.shiftr (u32 (c - id)) 16))
  = if id <=? c then c - id else c - id + 65535.
Proof.
  intros Hc Hid. destruct (Z.leb_spec id c) as [Hle | Hgt].
  - rewrite (u32_small (c - id)) by (change (2 ^ 32) with 4294967296; lia).
    rewrite Z.shiftr_div_pow2, Z.div_small, Z.add_0_r by lia.
    rewrite u32_small by (change (2 ^ 32) with 4294967296; lia).
    apply u16_small. change (2 ^ 16) with 65536. lia.
  - assert (Hd : u32 (c - id) = c - id + 4294967296).
    { unfold u32. change (2 ^ 32) with 4294967296.
      symmetry. apply (Z.mod_unique _ _ (-1)); lia. }
    rewrite Hd, Z.shiftr_div_pow2 by lia. change (2 ^ 16) with 65536.
    assert (Hq : (c - id + 4294967296) / 65536 = 65535)
      by (symmetry;
          apply (Z.div_unique _ _ _ (c - id + 65536)); lia).
    rewrite Hq.
    assert (Hs : u32 (c - id + 4294967296 + 65535) = c - id + 65535).
    { unfold u32. change (2 ^ 32) with 4294967296.
      symmetry. apply (Z.mod_unique _ _ 1); lia. }
    rewrite Hs. apply u16_small. change (2 ^ 16) with 65536. lia.
Qed.

(** The one's-complement algebra of the incremental update: the new
    checksum and the new identification value add up to the old sum,
    modulo [2 ^ 16 - 1]. *)
Lemma testbed_check_congruent (old_check old_id id : Z) :
  0 <= old_check < 65536 -> 0 <= old_id < 65536 -> 0 <= id < 65536 ->
  exists k : Z,
    u16 (testbed_check old_check old_id id) + id
    = old_check + old_id + 65535 * k.
Proof.
  intros Hc Hi Hn. unfold testbed_check.
  rewrite (u32_small (old_check + old_id))
    by (change (2 ^ 32) with 4294967296; lia).
  rewrite testbed_check_add by lia.
  destruct (Z.ltb_spec (old_check + old_id) 65535) as [Hlt | Hge];
    rewrite testbed_check_sub by lia;
    match goal with |- context [?a <=? ?b] =>
      destruct (Z.leb_spec a b) end.
  - exists 0. lia.
  - exists 1. lia.
  - exists (-1). lia.
  - exists 0. lia.
Qed.

Lemma testbed_check_range (old_check old_id id : Z) :
  0 <= u16 (testbed_check old_check old_id id) < 65536.
Proof. apply u16_range. Qed.

(** A folded sum verifies, that is complements to zero, exactly when
    the sum is a positive multiple of [2 ^ 16 - 1]. *)
Lemma csum_fold_zero_iff (s : Z) :
  0 <= s < 2 ^ 32 ->
  csum_fold s = 0 <-> exists k : Z, 0 < k /\ s = 65535 * k.
Proof.
  intros Hs. change (2 ^ 32) with 4294967296 in Hs. unfold csum_fold.
  rewrite !land_65535, !Z.shiftr_div_pow2 by lia.
  change (2 ^ 16) with 65536.
  pose proof (Z.div_mod s 65536 ltac:(lia)) as Hdm.
  pose proof (Z.mod_pos_bound s 65536 ltac:(lia)) as Hb.
  assert (Ha : 0 <= s / 65536 < 65536).
  { split; [apply Z.div_pos; lia | apply Z.div_lt_upper_bound; lia]. }
  set (a := s / 65536) in *. set (b := s mod 65536) in *.
  assert (Hfold : (b + a) mod 65536 + (b + a) / 65536
                  = if b + a <? 65536 then b + a else b + a - 65535).
  { destruct (Z.ltb_spec (b + a) 65536).
    - rewrite Z.mod_small, Z.div_small by lia. lia.
    - assert ((b + a) / 65536 = 1) as ->
        by (symmetry; apply (Z.div_unique _ _ _ (b + a - 65536)); lia).
      assert ((b + a) mod 65536 = b + a - 65536) as ->
        by (symmetry; apply (Z.mod_unique _ _ 1); lia).
      lia. }
  rewrite Hfold. set (f := if b + a <? 65536 then _ else _).
  assert (Hf : 0 <= f <= 65535)
    by (subst f; destruct (Z.ltb_spec (b + a) 65536); lia).
  assert (Hnot : u16 (Z.lnot f) = 65535 - f).
  { unfold u16, Z.lnot. change (2 ^ 16) with 65536.
    symmetry. apply (Z.mod_unique _ _ (-1)); lia. }
  rewrite Hnot. subst f.
  destruct (Z.ltb_spec (b + a) 65536) as [Hlt | Hge]; split.
  - intros H. exists (a + 1). lia.
  - intros (k & Hk & Heq). lia.
  - intros H. exists (a + 2). lia.
  - intros (k & Hk & Heq). lia.
Qed.

(** The sum of the words of at most [n] bytes. *)
Lemma csum_words_bound (bs : list Z) :
  Forall (fun b => 0 <= b < 256) bs ->
  0 <= csum_words bs <= 65535 * Z.of_nat (length bs).
Proof.
  enough (H : forall l, Forall (fun b => 0 <= b < 256) l ->
            (0 <= csum_words l <= 65535 * Z.of_nat (length l)) /\
            forall x, 0 <= x < 256 ->
              0 <= csum_words (x :: l) <= 65535 * Z.of_nat (length (x :: l))).
  { intros Hall. now apply H. }
  induction l as [| y l IH]; intros Hall.
  - split; [cbn; lia |]. intros x Hx.
    change (csum_words [x]) with (ntohs (x, 0)).
    unfold ntohs. cbn [fst snd length]. lia.
  - apply Forall_cons in Hall as [Hy Hl]. destruct (IH Hl) as [IH0 IH1].
    split; [now apply IH1 |]. intros x Hx.
    change (csum_words (x :: y :: l)) with (ntohs (x, y) + csum_words l).
    unfold ntohs. cbn [fst snd length]. lia.
Qed.

(** ** The header seen through its first twelve bytes *)

Lemma iphdr_view (iph : list Z) :
  (12 <= length iph)%nat ->
  exists b0 b1 b2 b3 b4 b5 b6 b7 b8 b9 b10 b11 rest,
    iph = b0 :: b1 :: b2 :: b3 :: b4 :: b5 :: b6 :: b7 :: b8 :: b9
             :: b10 :: b11 :: rest.
Proof.
  intros Hlen.
  do 12 (destruct iph as [| ? iph]; [cbn in Hlen; lia |]).
  repeat eexists.
Qed.

Lemma set_fields_view (b0 b1 b2 b3 b4 b5 b6 b7 b8 b9 b10 b11 : Z)
    (rest : list Z) (x y : be16) :
  set_iph_check
    (set_iph_id (b0 :: b1 :: b2 :: b3 :: b4 :: b5 :: b6 :: b7 :: b8 :: b9
                    :: b10 :: b11 :: rest) x) y
  = b0 :: b1 :: b2 :: b3 :: fst x :: snd x :: b6 :: b7 :: b8 :: b9
       :: fst y :: snd y :: rest.
Proof. reflexivity. Qed.

Lemma ip_fast_csum_view (b0 b1 b2 b3 b4 b5 b6 b7 b8 b9 b10 b11 : Z)
    (rest : list Z) :
  5 <= Z.land b0 15 ->
  ip_fast_csum (b0 :: b1 :: b2 :: b3 :: b4 :: b5 :: b6 :: b7 :: b8 :: b9
                   :: b10 :: b11 :: rest)
  = csum_fold
      (ntohs (b0, b1) + (ntohs (b2, b3) + (ntohs (b4, b5) + (ntohs (b6, b7)
       + (ntohs (b8, b9) + (ntohs (b10, b11)
       + csum_words (take (Z.to_nat (4 * Z.land b0 15) - 12) rest))))))).
Proof.
  intros Hihl. unfold ip_fast_csum, iph_ihl.
  change ((b0 :: _) !!! 0%nat) with b0.
  set (n := Z.to_nat (4 * Z.land b0 15)).
  replace n with (12 + (n - 12))%nat at 1 by (subst n; lia).
  reflexivity.
Qed.

Lemma ntohs_range (hi lo : Z) :
  0 <= hi < 256 -> 0 <= lo < 256 -> 0 <= ntohs (hi, lo) < 65536.
Proof. intros Hhi Hlo. unfold ntohs. cbn [fst snd]. lia. Qed.

Lemma ihl_le_byte (b : Z) : 0 <= b -> Z.land b 15 <= b.
Proof.
  intros Hb. change (Z.land b 15) with (Z.land b (2 ^ 4 - 1)).
  rewrite land_pow2_pred by lia. apply Z.mod_le; lia.
Qed.

Lemma ihl_le_15 (b : Z) : 0 <= Z.land b 15 <= 15.
Proof.
  change (Z.land b 15) with (Z.land b (2 ^ 4 - 1)).
  rewrite land_pow2_pred by lia.
  pose proof (Z.mod_pos_bound b (2 ^ 4) ltac:(lia)).
  change (2 ^ 4) with 16 in *. lia.
Qed.

(** C1: on a well-formed IPv4 header whose checksum verifies, that is
    whose one's-complement sum over the whole header folds and
    complements to zero, the header that [testbed_add_metrics_ipv4]
    leaves behind verifies again when its checksum is recomputed from
    scratch, for every accumulator state and every delay value of the
    parameter's type (the 11-bit codewords among them). *)
Theorem testbed_add_metrics_ipv4_checksum_valid
    (INET_ECN_MASK : Z) (iph : list Z) (testbed : testbed_metrics)
    (qdelay : Z) :
  iphdr_wf iph ->
  ip_fast_csum iph = 0 ->
  0 <= qdelay < 2 ^ 16 ->
  ip_fast_csum
    (fst (testbed_add_metrics_ipv4 INET_ECN_MASK iph testbed qdelay)) = 0.
Proof.
  intros (Hbytes & _ & Hihl & Hlen) Hvalid _.
  destruct (iphdr_view iph ltac:(lia))
    as (b0 & b1 & b2 & b3 & b4 & b5 & b6 & b7 & b8 & b9 & b10 & b11 & rest
        & ->).
  unfold iph_ihl in Hihl, Hlen.
  change ((b0 :: _) !!! 0%nat) with b0 in Hihl, Hlen.
  unfold testbed_add_metrics_ipv4.
  destruct (testbed_write_drops _ _ _) as [drops32 testbed']. cbn [fst].
  rewrite set_fields_view, ip_fast_csum_view by assumption.
  rewrite ip_fast_csum_view in Hvalid by assumption.
  change (iph_check (b0 :: _)) with (b10, b11).
  change (iph_id (b0 :: _)) with (b4, b5).
  do 12 (apply Forall_cons in Hbytes as [? Hbytes]).
  set (R := csum_words (take (Z.to_nat (4 * Z.land b0 15) - 12) rest)) in *.
  assert (HR : 0 <= R <= 65535 * 48).
  { assert (Htake : Forall (fun b => 0 <= b < 256)
                        (take (Z.to_nat (4 * Z.land b0 15) - 12) rest))
      by now apply Forall_take.
    apply csum_words_bound in Htake as HRb.
    rewrite length_take in HRb. fold R in HRb.
    pose proof (ihl_le_15 b0). lia. }
  pose proof (ihl_le_byte b0 ltac:(lia)) as Hb0.
  set (id := testbed_id qdelay (u16 drops32)).
  pose proof (testbed_id_range qdelay (u16 drops32)) as Hid. fold id in Hid.
  pose proof (ntohs_range b10 b11 ltac:(lia) ltac:(lia)) as Hcheck.
  pose proof (ntohs_range b4 b5 ltac:(lia) ltac:(lia)) as Hold.
  destruct (testbed_check_congruent _ _ id Hcheck Hold Hid) as [j Hj].
  pose proof (testbed_check_range (ntohs (b10, b11)) (ntohs (b4, b5)) id)
    as Hnew.
  set (check := testbed_check (ntohs (b10, b11)) (ntohs (b4, b5)) id) in *.
  change (ntohs (fst (htons id), snd (htons id))) with (ntohs (htons id)).
  change (ntohs (fst (htons check), snd (htons check)))
    with (ntohs (htons check)).
  rewrite !ntohs_htons. rewrite (u16_small id) by exact Hid.
  pose proof (ntohs_range b0 b1 ltac:(lia) ltac:(lia)) as Hw0.
  pose proof (ntohs_range b2 b3 ltac:(lia) ltac:(lia)) as Hw1.
  pose proof (ntohs_range b6 b7 ltac:(lia) ltac:(lia)) as Hw3.
  pose proof (ntohs_range b8 b9 ltac:(lia) ltac:(lia)) as Hw4.
  assert (Hpos : 1280 <= ntohs (b0, b1)) by (unfold ntohs; cbn [fst snd]; lia).
  apply csum_fold_zero_iff in Hvalid as (k & Hk & Hsum);
    [| change (2 ^ 32) with 4294967296; lia].
  apply csum_fold_zero_iff; [change (2 ^ 32) with 4294967296; lia |].
  exists (k + j). lia.
Qed.

Lemma testbed_add_metrics_ipv4_checksum_valid_witness :
  let iph := [69; 0; 0; 84; 18; 52; 64; 0; 64; 1; 166; 92;
              192; 168; 0; 1; 192; 168; 0; 199] in
  let tb := {| drops_ecn := 100; drops_nonecn := 7 |} in
  iphdr_wf iph /\ ip_fast_csum iph = 0 /\ 0 <= 2046 < 2 ^ 16 /\
  ip_fast_csum (fst (testbed_add_metrics_ipv4 3 iph tb 2046)) = 0.
Proof.
  intros iph tb.
  assert (Hwf : iphdr_wf iph).
  { unfold iphdr_wf. split; [| split; [reflexivity | split]].
    - subst iph. repeat (apply Forall_cons; split; [lia |]). constructor.
    - vm_compute. discriminate.
    - vm_compute. discriminate. }
  assert (Hvalid : ip_fast_csum iph = 0) by reflexivity.
  assert (Hq : 0 <= 2046 < 2 ^ 16)
    by (vm_compute; split; [discriminate | reflexivity]).
  exact (conj Hwf (conj Hvalid (conj Hq
           (testbed_add_metrics_ipv4_checksum_valid 3 iph tb 2046
              Hwf Hvalid Hq)))).
Defined.

(** The drop codeword handed to the embedding fits in five bits. *)
Lemma testbed_write_drops_range
    (INET_ECN_MASK tos : Z) (testbed : testbed_metrics) :
  0 <= drops_ecn testbed < 65536 ->
  0 <= drops_nonecn testbed < 65536 ->
  0 <= fst (testbed_write_drops INET_ECN_MASK testbed tos) < 32.
Proof.
  intros Hecn Hnon. unfold testbed_write_drops.
  assert (Hcw : forall c, 0 <= c < 65536 ->
                  0 <= fst (int2fl c DROPS_M DROPS_E) < 32).
  { intros c Hc.
    apply (int2fl_codeword_range _ _ drops_params_ok c).
    change (2 ^ 32) with 4294967296. lia. }
  destruct (negb _).
  - specialize (Hcw _ Hecn).
    now destruct (int2fl (drops_ecn testbed) DROPS_M DROPS_E).
  - specialize (Hcw _ Hnon).
    now destruct (int2fl (drops_nonecn testbed) DROPS_M DROPS_E).
Qed.

(** C5: the identification field that [testbed_add_metrics_ipv4] writes
    is [qdelay | (drops << 11)]: reading the field back, its low 11
    bits are the delay codeword and its high 5 bits the drop codeword,
    whatever the checksum fields held; the (7,4) codeword fits in 11
    bits and the (2,3) codeword in 5 bits for every input. *)
Theorem testbed_add_metrics_ipv4_id_fields
    (INET_ECN_MASK : Z) (iph : list Z) (testbed : testbed_metrics)
    (qdelay : Z) :
  sizeof_iphdr <= Z.of_nat (length iph) ->
  0 <= drops_ecn testbed < 65536 ->
  0 <= drops_nonecn testbed < 65536 ->
  0 <= qdelay < 2 ^ 11 ->
  let drops := fst (testbed_write_drops INET_ECN_MASK testbed (iph_tos iph)) in
  let id :=
    ntohs (iph_id (fst (testbed_add_metrics_ipv4 INET_ECN_MASK iph testbed
                          qdelay))) in
  id = Z.lor qdelay (Z.shiftl drops 11) /\
  Z.land id 2047 = qdelay /\
  Z.shiftr id 11 = drops /\
  0 <= drops < 2 ^ 5 /\
  (forall v, 0 <= v < 2 ^ 32 ->
     0 <= fst (int2fl v QDELAY_M QDELAY_E) < 2 ^ 11 /\
     0 <= fst (int2fl v DROPS_M DROPS_E) < 2 ^ 5).
Proof.
  intros Hlen Hecn Hnon Hq drops id. unfold sizeof_iphdr in Hlen.
  change (2 ^ 11) with 2048 in Hq.
  pose proof (testbed_write_drops_range INET_ECN_MASK (iph_tos iph) testbed
                Hecn Hnon) as Hdrops.
  fold drops in Hdrops.
  assert (Hid : id = testbed_id qdelay drops).
  { subst id drops.
    destruct (iphdr_view iph ltac:(lia))
      as (b0 & b1 & b2 & b3 & b4 & b5 & b6 & b7 & b8 & b9 & b10 & b11 & rest
          & ->).
    unfold testbed_add_metrics_ipv4.
    destruct (testbed_write_drops _ _ _) as [drops32 testbed'].
    cbn [fst] in *. rewrite set_fields_view.
    change (iph_id (b0 :: b1 :: b2 :: b3 :: ?x :: ?y :: _)) with (x, y).
    rewrite (u16_small drops32) by (change (2 ^ 16) with 65536; lia).
    change (ntohs (fst ?x, snd ?x)) with (ntohs x).
    rewrite ntohs_htons. apply u16_small, testbed_id_range. }
  assert (Hlor : Z.lor qdelay (Z.shiftl drops 11) = drops * 2048 + qdelay).
  { rewrite <- testbed_id_pack by lia. unfold testbed_id.
    symmetry. apply u16_small. rewrite Z.shiftl_mul_pow2, Z.lor_comm by lia.
    rewrite lor_high_low by (change (2 ^ 11) with 2048; lia).
    change (2 ^ 11) with 2048. change (2 ^ 16) with 65536. lia. }
  rewrite Hid, testbed_id_pack by lia.
  split; [now rewrite Hlor | split; [| split; [| split]]].
  - change 2047 with (2 ^ 11 - 1). rewrite land_pow2_pred by lia.
    change (2 ^ 11) with 2048.
    rewrite Z.add_comm, Z_mod_plus_full. apply Z.mod_small. lia.
  - rewrite Z.shiftr_div_pow2 by lia. change (2 ^ 11) with 2048.
    rewrite Z.add_comm, Z_div_plus_full by lia.
    rewrite Z.div_small by lia. lia.
  - exact Hdrops.
  - intros v Hv. split.
    + apply (int2fl_codeword_range _ _ qdelay_params_ok v Hv).
    + apply (int2fl_codeword_range _ _ drops_params_ok v Hv).
Qed.

Lemma testbed_add_metrics_ipv4_id_fields_witness :
  let iph := [69; 2; 0; 84; 18; 52; 64; 0; 64; 1; 166; 90;
              192; 168; 0; 1; 192; 168; 0; 199] in
  let tb := {| drops_ecn := 100; drops_nonecn := 7 |} in
  sizeof_iphdr <= Z.of_nat (length iph) /\
  0 <= drops_ecn tb < 65536 /\ 0 <= drops_nonecn tb < 65536 /\
  0 <= 2046 < 2 ^ 11 /\
  ntohs (iph_id (fst (testbed_add_metrics_ipv4 3 iph tb 2046)))
  = Z.lor 2046 (Z.shiftl 22 11).
Proof.
  intros iph tb.
  assert (Hlen : sizeof_iphdr <= Z.of_nat (length iph))
    by (vm_compute; discriminate).
  assert (R1 : 0 <= drops_ecn tb < 65536) by (cbn; lia).
  assert (R2 : 0 <= drops_nonecn tb < 65536) by (cbn; lia).
  assert (Hq : 0 <= 2046 < 2 ^ 11)
    by (vm_compute; split; [discriminate | reflexivity]).
  exact (conj Hlen (conj R1 (conj R2 (conj Hq
           (proj1 (testbed_add_metrics_ipv4_id_fields 3 iph tb 2046
                     Hlen R1 R2 Hq)))))).
Defined.

(** * Further properties of the codec *)

Section CodecOrder.

Variables m_b e_b : Z.
Hypothesis Hok : codec_params_ok m_b e_b.

(** The decoder on a codeword, in one equation: the exponent field is
    the quotient by [2 ^ m_b], the mantissa the rest. *)
Lemma fl2int_codeword (cw : Z) :
  0 <= cw < 2 ^ (m_b + e_b) ->
  fl2int cw m_b e_b =
    if cw <? 2 ^ (m_b + 1) then cw
    else (cw mod 2 ^ m_b + 2 ^ m_b) * 2 ^ (cw / 2 ^ m_b - 1).
Proof using Hok.
  intros Hcw.
  destruct (codec_numeric_bounds _ _ Hok) as (Hm & He & HM & HE & Hadd & Hprod).
  destruct (Z.ltb_spec cw (2 ^ (m_b + 1))) as [Hlt | Hge].
  - apply fl2int_direct; [assumption | lia].
  - rewrite pow2_succ in Hge by lia. rewrite Hadd in Hcw.
    pose proof (Z.div_mod cw (2 ^ m_b) ltac:(lia)) as Hdm.
    pose proof (Z.mod_pos_bound cw (2 ^ m_b) ltac:(lia)) as Hmod.
    set (ex := cw / 2 ^ m_b) in *. set (mant := cw mod 2 ^ m_b) in *.
    assert (Hex : 2 <= ex <= 2 ^ e_b - 1) by nia.
    rewrite Hdm at 1. rewrite (Z.mul_comm (2 ^ m_b) ex).
    now apply fl2int_normal.
Qed.

(** Splitting a codeword into exponent field and mantissa. *)
Lemma codeword_fields (ex mant : Z) :
  0 <= mant < 2 ^ m_b ->
  (ex * 2 ^ m_b + mant) / 2 ^ m_b = ex /\
  (ex * 2 ^ m_b + mant) mod 2 ^ m_b = mant.
Proof using Hok.
  intros Hmant.
  replace (ex * 2 ^ m_b + mant) with (mant + ex * 2 ^ m_b) by lia.
  rewrite Z_div_plus_full, Z_mod_plus_full by lia.
  rewrite Z.div_small, Z.mod_small by lia. lia.
Qed.

(** The distance between the values of two neighbouring codewords: one
    in the direct range, the weight of the lowest mantissa bit above
    it. *)
Lemma fl2int_succ (cw : Z) :
  0 <= cw -> cw + 1 < 2 ^ (m_b + e_b) ->
  fl2int (cw + 1) m_b e_b
  = fl2int cw m_b e_b + 2 ^ Z.max 0 (cw / 2 ^ m_b - 1).
Proof using Hok.
  intros Hcw Hnext.
  destruct (codec_numeric_bounds _ _ Hok) as (Hm & He & HM & HE & Hadd & Hprod).
  rewrite !fl2int_codeword by lia.
  rewrite Hadd in Hnext. rewrite pow2_succ by lia.
  pose proof (Z.div_mod cw (2 ^ m_b) ltac:(lia)) as Hdm.
  pose proof (Z.mod_pos_bound cw (2 ^ m_b) ltac:(lia)) as Hmod.
  set (ex := cw / 2 ^ m_b) in *. set (mant := cw mod 2 ^ m_b) in *.
  assert (Hex : 0 <= ex <= 2 ^ e_b - 1) by nia.
  destruct (Z.ltb_spec (cw + 1) (2 * 2 ^ m_b)) as [Hdirect | Hhigh].
  - destruct (Z.ltb_spec cw (2 * 2 ^ m_b)); [| lia].
    assert (ex <= 1) by nia.
    rewrite Z.max_l by lia. reflexivity.
  - destruct (Z.ltb_spec cw (2 * 2 ^ m_b)) as [Hlast | Hnormal].
    + assert (Hcw2 : cw + 1 = 2 * 2 ^ m_b + 0) by lia.
      assert (ex = 1) by nia.
      rewrite Z.max_l by lia. rewrite Hcw2.
      destruct (codeword_fields 2 0 ltac:(lia)) as [-> ->].
      change (2 ^ (2 - 1)) with 2. change (2 ^ 0) with 1. lia.
    + assert (Hex2 : 2 <= ex) by nia.
      rewrite Z.max_r by lia.
      assert (Hp : 0 < 2 ^ (ex - 1)) by (apply pow2_pos; lia).
      destruct (Z.lt_ge_cases (mant + 1) (2 ^ m_b)) as [Hin | Hcarry].
      * replace (cw + 1) with (ex * 2 ^ m_b + (mant + 1)) by lia.
        destruct (codeword_fields ex (mant + 1) ltac:(lia)) as [-> ->]. lia.
      * replace (cw + 1) with ((ex + 1) * 2 ^ m_b + 0) by lia.
        destruct (codeword_fields (ex + 1) 0 ltac:(lia)) as [-> ->].
        replace (ex + 1 - 1) with (ex - 1 + 1) by lia.
        rewrite pow2_succ by lia. nia.
Qed.

Lemma fl2int_succ_lt (cw : Z) :
  0 <= cw -> cw + 1 < 2 ^ (m_b + e_b) ->
  fl2int cw m_b e_b < fl2int (cw + 1) m_b e_b.
Proof using Hok.
  intros Hcw Hnext. rewrite fl2int_succ by assumption.
  assert (0 < 2 ^ Z.max 0 (cw / 2 ^ m_b - 1)) by (apply pow2_pos; lia). lia.
Qed.

(** The decoder is strictly increasing along the codewords. *)
Lemma fl2int_increasing (a b : Z) :
  0 <= a -> a < b -> b < 2 ^ (m_b + e_b) ->
  fl2int a m_b e_b < fl2int b m_b e_b.
Proof using Hok.
  intros Ha Hab Hb.
  assert (Hsteps : forall n : nat,
            a + 1 + Z.of_nat n < 2 ^ (m_b + e_b) ->
            fl2int a m_b e_b < fl2int (a + 1 + Z.of_nat n) m_b e_b).
  { induction n as [| n IH]; intros Hn.
    - rewrite Z.add_0_r. apply fl2int_succ_lt; lia.
    - eapply Z.lt_trans; [apply IH; lia |].
      replace (a + 1 + Z.of_nat (S n)) with (a + 1 + Z.of_nat n + 1) by lia.
      apply fl2int_succ_lt; lia. }
  replace b with (a + 1 + Z.of_nat (Z.to_nat (b - a - 1))) by lia.
  apply Hsteps. lia.
Qed.

Lemma fl2int_nondecreasing (a b : Z) :
  0 <= a -> a <= b -> b < 2 ^ (m_b + e_b) ->
  fl2int a m_b e_b <= fl2int b m_b e_b.
Proof using Hok.
  intros Ha Hab Hb. destruct (Z.eq_dec a b) as [-> | Hne]; [lia |].
  apply Z.lt_le_incl, fl2int_increasing; lia.
Qed.

End CodecOrder.

Section CodecQuantize.

Variables m_b e_b : Z.
Hypothesis Hok : codec_params_ok m_b e_b.

Lemma int2fl_max_fl_u32 : int2fl_max_fl m_b e_b < 2147483648.
Proof using Hok.
  destruct (codec_numeric_bounds _ _ Hok) as (Hm & He & HM & HE & _).
  pose proof (decoded_bound m_b e_b Hok (2 ^ m_b - 1) (2 ^ e_b - 2)
                ltac:(lia) ltac:(lia)) as Hb.
  rewrite (int2fl_max_fl_eq _ _ Hok), pow2_succ by lia.
  replace (2 * 2 ^ m_b - 1) with (2 ^ m_b - 1 + 2 ^ m_b) by lia. lia.
Qed.

(** Below the largest decoded value the encoder never answers the
    all-ones codeword, and its remainder stays below the distance to the
    next codeword's value and below the [2 ^ m_b]-th part of the decoded
    value. *)
Lemma int2fl_below_max (v : Z) :
  0 <= v < int2fl_max_fl m_b e_b ->
  0 <= fst (int2fl v m_b e_b) /\
  fst (int2fl v m_b e_b) + 1 < 2 ^ (m_b + e_b) /\
  0 <= snd (int2fl v m_b e_b)
    < 2 ^ Z.max 0 (fst (int2fl v m_b e_b) / 2 ^ m_b - 1) /\
  snd (int2fl v m_b e_b) * 2 ^ m_b
    <= fl2int (fst (int2fl v m_b e_b)) m_b e_b.
Proof using Hok.
  intros Hv.
  destruct (codec_numeric_bounds _ _ Hok) as (Hm & He & HM & HE & Hadd & Hprod).
  pose proof int2fl_max_fl_u32 as Hmax.
  assert (Hv32 : 0 <= v < 2 ^ 32) by (change (2 ^ 32) with 4294967296; lia).
  pose proof (int2fl_codeword_range _ _ Hok v Hv32) as Hrange.
  pose proof (codec_roundtrip _ _ Hok v Hv32) as Hround.
  pose proof (int2fl_remainder_nonneg _ _ Hok v Hv32) as Hrem.
  split; [lia |]. split.
  - destruct (Z.eq_dec (fst (int2fl v m_b e_b)) (2 ^ (m_b + e_b) - 1))
      as [Hall | Hne]; [| lia].
    rewrite Hall, (fl2int_all_ones _ _ Hok) in Hround. lia.
  - destruct (Z.lt_ge_cases v (2 ^ (m_b + 1))) as [Hlt | Hge].
    + rewrite (int2fl_direct _ _ Hok) in * by assumption. cbn [fst snd] in *.
      pose proof (fl2int_nonneg v m_b e_b).
      assert (0 < 2 ^ Z.max 0 (v / 2 ^ m_b - 1)) by (apply pow2_pos; lia).
      lia.
    + destruct (int2fl_normal _ _ Hok v (conj Hge (proj2 Hv)))
        as (Hx & Hq & Heq).
      rewrite Heq in *. cbn [fst snd] in *.
      set (x := Z.log2 v - m_b) in *.
      rewrite pow2_succ in Hq by lia.
      destruct (codeword_fields m_b e_b Hok (x + 1) (v / 2 ^ x - 2 ^ m_b)
                  ltac:(lia)) as [Hdiv _].
      rewrite Hdiv. replace (x + 1 - 1) with x by lia.
      rewrite Z.max_r by lia.
      assert (Hpx : 0 < 2 ^ x) by (apply pow2_pos; lia).
      pose proof (Z.mod_pos_bound v (2 ^ x) Hpx) as Hr.
      pose proof (Z.div_mod v (2 ^ x) ltac:(lia)) as Hdm.
      split; [lia | nia].
Qed.

(** The encoder rounds down to the nearest decoded value: the value of
    its codeword is at most [v], the value of the next codeword is
    above. *)
Lemma int2fl_brackets (v : Z) :
  0 <= v < int2fl_max_fl m_b e_b ->
  fl2int (fst (int2fl v m_b e_b)) m_b e_b <= v
  /\ v < fl2int (fst (int2fl v m_b e_b) + 1) m_b e_b.
Proof using Hok.
  intros Hv. pose proof int2fl_max_fl_u32 as Hmax.
  assert (Hv32 : 0 <= v < 2 ^ 32) by (change (2 ^ 32) with 4294967296; lia).
  pose proof (codec_roundtrip _ _ Hok v Hv32) as Hround.
  destruct (int2fl_below_max v Hv) as (Hcw0 & Hcw1 & Hr & _).
  rewrite (fl2int_succ _ _ Hok) by assumption. lia.
Qed.

(** A larger value never gets a smaller codeword. *)
Lemma int2fl_nondecreasing (v1 v2 : Z) :
  0 <= v1 -> v1 <= v2 -> v2 < 2 ^ 32 ->
  fst (int2fl v1 m_b e_b) <= fst (int2fl v2 m_b e_b).
Proof using Hok.
  intros H1 H12 H2.
  assert (Hv1 : 0 <= v1 < 2 ^ 32) by lia.
  assert (Hv2 : 0 <= v2 < 2 ^ 32) by lia.
  pose proof (int2fl_codeword_range _ _ Hok v1 Hv1) as Hr1.
  destruct (Z.le_gt_cases (int2fl_max_fl m_b e_b) v2) as [Hsat | Hin].
  - rewrite (int2fl_at_or_above_max _ _ Hok v2 Hv2 Hsat). cbn [fst]. lia.
  - destruct (int2fl_brackets v1 ltac:(lia)) as [Hlo1 _].
    destruct (int2fl_brackets v2 ltac:(lia)) as [_ Hhi2].
    destruct (int2fl_below_max v2 ltac:(lia)) as (Hc0 & Hc1 & _).
    destruct (Z.le_gt_cases (fst (int2fl v1 m_b e_b))
                            (fst (int2fl v2 m_b e_b))) as [Hle | Hgt];
      [assumption | exfalso].
    pose proof (fl2int_nondecreasing _ _ Hok
                  (fst (int2fl v2 m_b e_b) + 1) (fst (int2fl v1 m_b e_b))
                  ltac:(lia) ltac:(lia) ltac:(lia)).
    lia.
Qed.

(** Every codeword is the encoding of its own value, with nothing left
    over. *)
Lemma int2fl_fl2int (cw : Z) :
  0 <= cw < 2 ^ (m_b + e_b) ->
  int2fl (fl2int cw m_b e_b) m_b e_b = (cw, 0).
Proof using Hok.
  intros Hcw. pose proof int2fl_max_fl_u32 as Hmax.
  pose proof (fl2int_nonneg cw m_b e_b) as Hnn.
  destruct (Z.eq_dec cw (2 ^ (m_b + e_b) - 1)) as [Hall | Hne].
  - rewrite Hall, (fl2int_all_ones _ _ Hok).
    rewrite (int2fl_at_or_above_max _ _ Hok);
      [f_equal; lia | | lia].
    pose proof (int2fl_max_fl_pos _ _ Hok).
    change (2 ^ 32) with 4294967296. lia.
  - pose proof (fl2int_increasing _ _ Hok cw (2 ^ (m_b + e_b) - 1)
                  ltac:(lia) ltac:(lia) ltac:(lia)) as Hlt.
    rewrite (fl2int_all_ones _ _ Hok) in Hlt.
    set (v := fl2int cw m_b e_b) in *.
    assert (Hv : 0 <= v < int2fl_max_fl m_b e_b) by lia.
    assert (Hv32 : 0 <= v < 2 ^ 32) by (change (2 ^ 32) with 4294967296; lia).
    destruct (int2fl_brackets v Hv) as [Hlo Hhi].
    destruct (int2fl_below_max v Hv) as (Hc0 & Hc1 & _).
    pose proof (codec_roundtrip _ _ Hok v Hv32) as Hround.
    assert (Hsame : fst (int2fl v m_b e_b) = cw).
    { destruct (Z.lt_trichotomy (fst (int2fl v m_b e_b)) cw)
        as [Hless | [Heq | Hmore]]; [exfalso | assumption | exfalso].
      - pose proof (fl2int_nondecreasing _ _ Hok
                      (fst (int2fl v m_b e_b) + 1) cw
                      ltac:(lia) ltac:(lia) ltac:(lia)).
        fold v in H. lia.
      - pose proof (fl2int_increasing _ _ Hok cw (fst (int2fl v m_b e_b))
                      ltac:(lia) ltac:(lia) ltac:(lia)).
        fold v in H. lia. }
    rewrite Hsame in Hround. fold v in Hround.
    destruct (int2fl v m_b e_b) as [c r]. cbn [fst snd] in *.
    f_equal; lia.
Qed.

End CodecQuantize.

(** The decoder reads the low [m_b + e_b] bits of its argument only. *)
Lemma fl2int_mask (m_b e_b fl : Z) :
  codec_params_ok m_b e_b ->
  fl2int fl m_b e_b = fl2int (fl mod 2 ^ (m_b + e_b)) m_b e_b.
Proof.
  intros Hok.
  destruct (codec_numeric_bounds _ _ Hok) as (Hm & He & HM & HE & Hadd & Hprod).
  assert (Hland : forall x,
            Z.land x (u32 (u32 (Z.shiftl (u32 (Z.shiftl 1 m_b)) e_b) - 1))
            = x mod 2 ^ (m_b + e_b)).
  { intros x. rewrite shiftl_1_pow2 by lia. drop_u32.
    rewrite Z.shiftl_mul_pow2 by lia. drop_u32.
    rewrite <- Hadd. apply land_pow2_pred. lia. }
  unfold fl2int. rewrite !Hland. rewrite Z.mod_mod; [reflexivity |].
  pose proof (pow2_pos (m_b + e_b)). lia.
Qed.

(** X1: on the codewords of a parameter pair the decoder is strictly
    increasing, so distinct codewords stand for distinct values. *)
Theorem fl2int_strictly_increasing (m_b e_b a b : Z) :
  codec_params_ok m_b e_b ->
  0 <= a -> a < b -> b < 2 ^ (m_b + e_b) ->
  fl2int a m_b e_b < fl2int b m_b e_b.
Proof. intros Hok. now apply fl2int_increasing. Qed.

Lemma fl2int_strictly_increasing_witness :
  codec_params_ok 2 3 /\ 0 <= 22 /\ 22 < 23 /\ 23 < 2 ^ (2 + 3) /\
  fl2int 22 2 3 < fl2int 23 2 3.
Proof.
  assert (H23 : codec_params_ok 2 3) by (unfold codec_params_ok; lia).
  assert (Ha : 0 <= 22) by lia.
  assert (Hab : 22 < 23) by lia.
  assert (Hb : 23 < 2 ^ (2 + 3)) by (vm_compute; reflexivity).
  exact (conj H23 (conj Ha (conj Hab (conj Hb
           (fl2int_strictly_increasing 2 3 22 23 H23 Ha Hab Hb))))).
Defined.

(** X2: below the largest decoded value the encoder rounds down to the
    nearest decoded value: its codeword decodes to at most [v], and the
    next codeword, which exists, decodes to more than [v]. *)
Theorem int2fl_rounds_down_to_nearest (m_b e_b v : Z) :
  codec_params_ok m_b e_b ->
  0 <= v < int2fl_max_fl m_b e_b ->
  fst (int2fl v m_b e_b) + 1 < 2 ^ (m_b + e_b) /\
  fl2int (fst (int2fl v m_b e_b)) m_b e_b <= v /\
  v < fl2int (fst (int2fl v m_b e_b) + 1) m_b e_b.
Proof.
  intros Hok Hv.
  destruct (int2fl_below_max _ _ Hok v Hv) as (_ & Hnext & _).
  destruct (int2fl_brackets _ _ Hok v Hv) as [Hlo Hhi]. auto.
Qed.

Lemma int2fl_rounds_down_to_nearest_witness :
  codec_params_ok 7 4 /\ 0 <= 70000 < int2fl_max_fl 7 4 /\
  fl2int (fst (int2fl 70000 7 4)) 7 4 <= 70000 /\
  70000 < fl2int (fst (int2fl 70000 7 4) + 1) 7 4.
Proof.
  assert (H74 : codec_params_ok 7 4) by (unfold codec_params_ok; lia).
  assert (R : 0 <= 70000 < int2fl_max_fl 7 4)
    by (vm_compute; split; [discriminate | reflexivity]).
  exact (conj H74 (conj R
           (proj2 (int2fl_rounds_down_to_nearest 7 4 70000 H74 R)))).
Defined.

(** X3: the encoder is monotone on all of [u32]: a larger value never
    gets a smaller codeword, saturation included. *)
Theorem int2fl_monotone (m_b e_b v1 v2 : Z) :
  codec_params_ok m_b e_b ->
  0 <= v1 -> v1 <= v2 -> v2 < 2 ^ 32 ->
  fst (int2fl v1 m_b e_b) <= fst (int2fl v2 m_b e_b).
Proof. intros Hok. now apply int2fl_nondecreasing. Qed.

Lemma int2fl_monotone_witness :
  codec_params_ok 2 3 /\ 0 <= 447 /\ 447 <= 5000 /\ 5000 < 2 ^ 32 /\
  fst (int2fl 447 2 3) <= fst (int2fl 5000 2 3).
Proof.
  assert (H23 : codec_params_ok 2 3) by (unfold codec_params_ok; lia).
  assert (H1 : 0 <= 447) by lia.
  assert (H12 : 447 <= 5000) by lia.
  assert (H2 : 5000 < 2 ^ 32) by (vm_compute; reflexivity).
  exact (conj H23 (conj H1 (conj H12 (conj H2
           (int2fl_monotone 2 3 447 5000 H23 H1 H12 H2))))).
Defined.

(** X4: encoding the value of a codeword gives the codeword back with
    remainder 0: every codeword is canonical, and the decoded values
    are exactly the values the encoder represents without loss. *)
Theorem int2fl_fl2int_canonical (m_b e_b cw : Z) :
  codec_params_ok m_b e_b ->
  0 <= cw < 2 ^ (m_b + e_b) ->
  int2fl (fl2int cw m_b e_b) m_b e_b = (cw, 0).
Proof. intros Hok. now apply int2fl_fl2int. Qed.

Lemma int2fl_fl2int_canonical_witness :
  codec_params_ok 7 4 /\ 0 <= 1500 < 2 ^ (7 + 4) /\
  int2fl (fl2int 1500 7 4) 7 4 = (1500, 0).
Proof.
  assert (H74 : codec_params_ok 7 4) by (unfold codec_params_ok; lia).
  assert (R : 0 <= 1500 < 2 ^ (7 + 4))
    by (vm_compute; split; [discriminate | reflexivity]).
  exact (conj H74 (conj R (int2fl_fl2int_canonical 7 4 1500 H74 R))).
Defined.

(** X5: the decoder looks at the low [m_b + e_b] bits of its argument
    only, and whatever it is given it answers a value between 0 and the
    largest decoded value. *)
Theorem fl2int_masked_and_bounded (m_b e_b fl : Z) :
  codec_params_ok m_b e_b ->
  fl2int fl m_b e_b = fl2int (Z.land fl (2 ^ (m_b + e_b) - 1)) m_b e_b /\
  0 <= fl2int fl m_b e_b <= int2fl_max_fl m_b e_b.
Proof.
  intros Hok.
  destruct (codec_numeric_bounds _ _ Hok) as (Hm & He & _).
  pose proof (pow2_pos (m_b + e_b) ltac:(lia)) as Hp.
  pose proof (Z.mod_pos_bound fl (2 ^ (m_b + e_b)) Hp) as Hmod.
  rewrite land_pow2_pred by lia.
  split; [now apply fl2int_mask |].
  split; [apply fl2int_nonneg |].
  rewrite (fl2int_mask _ _ fl Hok), <- (fl2int_all_ones _ _ Hok).
  apply (fl2int_nondecreasing _ _ Hok); lia.
Qed.

Lemma fl2int_masked_and_bounded_witness :
  codec_params_ok 2 3 /\
  fl2int 65535 2 3 = fl2int 31 2 3 /\ 0 <= fl2int 65535 2 3 <= 448.
Proof.
  assert (H23 : codec_params_ok 2 3) by (unfold codec_params_ok; lia).
  exact (conj H23 (fl2int_masked_and_bounded 2 3 65535 H23)).
Defined.

(** X6: below the largest decoded value the quantization error is
    small against the result: [2 ^ m_b] times the remainder is at most
    the decoded value, itself at most [v]; so the error is at most a
    quarter of the reported drop count and a 128th of the reported
    delay. *)
Theorem int2fl_relative_error (m_b e_b v : Z) :
  codec_params_ok m_b e_b ->
  0 <= v < int2fl_max_fl m_b e_b ->
  0 <= snd (int2fl v m_b e_b) /\
  snd (int2fl v m_b e_b) * 2 ^ m_b
    <= fl2int (fst (int2fl v m_b e_b)) m_b e_b /\
  fl2int (fst (int2fl v m_b e_b)) m_b e_b <= v.
Proof.
  intros Hok Hv.
  destruct (int2fl_below_max _ _ Hok v Hv) as (_ & _ & Hr & Hrel).
  destruct (int2fl_brackets _ _ Hok v Hv) as [Hlo _].
  repeat split; [lia | assumption | assumption].
Qed.

Lemma int2fl_relative_error_witness :
  codec_params_ok 2 3 /\ 0 <= 100 < int2fl_max_fl 2 3 /\
  snd (int2fl 100 2 3) * 2 ^ 2 <= fl2int (fst (int2fl 100 2 3)) 2 3.
Proof.
  assert (H23 : codec_params_ok 2 3) by (unfold codec_params_ok; lia).
  assert (R : 0 <= 100 < int2fl_max_fl 2 3)
    by (vm_compute; split; [discriminate | reflexivity]).
  exact (conj H23 (conj R
           (proj1 (proj2 (int2fl_relative_error 2 3 100 H23 R))))).
Defined.

(** X7: the encoder answers the codeword 0 for the value 0 and for no
    other 32-bit value: a zero field on the wire means nothing was
    counted. *)
Theorem int2fl_zero_iff (m_b e_b v : Z) :
  codec_params_ok m_b e_b ->
  0 <= v < 2 ^ 32 ->
  fst (int2fl v m_b e_b) = 0 <-> v = 0.
Proof.
  intros Hok Hv.
  destruct (codec_numeric_bounds _ _ Hok) as (Hm & He & HM & _).
  assert (Hone : 1 < 2 ^ (m_b + 1)) by (rewrite pow2_succ; lia).
  split.
  - intros Hzero.
    destruct (Z.eq_dec v 0) as [| Hne]; [assumption | exfalso].
    pose proof (int2fl_nondecreasing _ _ Hok 1 v ltac:(lia) ltac:(lia)
                  ltac:(lia)) as Hmono.
    rewrite (int2fl_direct _ _ Hok 1 Hone) in Hmono. cbn [fst] in Hmono. lia.
  - intros ->. rewrite (int2fl_direct _ _ Hok 0) by lia. reflexivity.
Qed.

Lemma int2fl_zero_iff_witness :
  codec_params_ok 2 3 /\ 0 <= 0 < 2 ^ 32 /\ fst (int2fl 0 2 3) = 0.
Proof.
  assert (H23 : codec_params_ok 2 3) by (unfold codec_params_ok; lia).
  assert (R : 0 <= 0 < 2 ^ 32)
    by (vm_compute; split; [discriminate | reflexivity]).
  exact (conj H23 (conj R
           (proj2 (int2fl_zero_iff 2 3 0 H23 R) eq_refl))).
Defined.

(** * Further properties of the drop accumulator *)

(** What [testbed_write_drops] computes on 16-bit counters, with the
    conversion of the remainder resolved. *)
Lemma testbed_write_drops_eq
    (INET_ECN_MASK tos : Z) (testbed : testbed_metrics) :
  0 <= drops_ecn testbed < 65536 ->
  0 <= drops_nonecn testbed < 65536 ->
  testbed_write_drops INET_ECN_MASK testbed tos =
    if negb (Z.land tos INET_ECN_MASK =? 0) then
      (fst (int2fl (drops_ecn testbed) DROPS_M DROPS_E),
       {| drops_ecn := snd (int2fl (drops_ecn testbed) DROPS_M DROPS_E);
          drops_nonecn := drops_nonecn testbed |})
    else
      (fst (int2fl (drops_nonecn testbed) DROPS_M DROPS_E),
       {| drops_ecn := drops_ecn testbed;
          drops_nonecn :=
            snd (int2fl (drops_nonecn testbed) DROPS_M DROPS_E) |}).
Proof.
  intros Hecn Hnon. unfold testbed_write_drops.
  destruct (negb _).
  - pose proof (drops_remainder_u16 _ Hecn) as Hr.
    destruct (int2fl (drops_ecn testbed) DROPS_M DROPS_E) as [cw r].
    cbn [fst snd] in *. now rewrite Hr.
  - pose proof (drops_remainder_u16 _ Hnon) as Hr.
    destruct (int2fl (drops_nonecn testbed) DROPS_M DROPS_E) as [cw r].
    cbn [fst snd] in *. now rewrite Hr.
Qed.

(** The drops codec on a 16-bit counter: what is reported and what is
    kept add up to the counter, and a non-zero counter reports a
    non-zero codeword and keeps less than it held. *)
Lemma drops_codec_split (c : Z) :
  0 <= c < 65536 ->
  fl2int (fst (int2fl c DROPS_M DROPS_E)) DROPS_M DROPS_E
    + snd (int2fl c DROPS_M DROPS_E) = c /\
  0 <= snd (int2fl c DROPS_M DROPS_E) <= c /\
  (c <> 0 -> fst (int2fl c DROPS_M DROPS_E) <> 0 /\
             snd (int2fl c DROPS_M DROPS_E) < c).
Proof.
  intros Hc.
  assert (Hc32 : 0 <= c < 2 ^ 32) by (change (2 ^ 32) with 4294967296; lia).
  pose proof (codec_roundtrip _ _ drops_params_ok c Hc32) as Hround.
  pose proof (int2fl_remainder_nonneg _ _ drops_params_ok c Hc32) as Hrem.
  pose proof (int2fl_codeword_range _ _ drops_params_ok c Hc32) as Hrange.
  pose proof (fl2int_nonneg (fst (int2fl c DROPS_M DROPS_E)) DROPS_M DROPS_E).
  split; [exact Hround | split; [lia |]].
  intros Hne.
  pose proof (int2fl_nondecreasing _ _ drops_params_ok 1 c
                ltac:(lia) ltac:(lia) ltac:(lia)) as Hmono.
  change (fst (int2fl 1 DROPS_M DROPS_E)) with 1 in Hmono.
  split; [lia |].
  pose proof (fl2int_nondecreasing _ _ drops_params_ok 1
                (fst (int2fl c DROPS_M DROPS_E))
                ltac:(lia) ltac:(lia) ltac:(lia)) as Hdec.
  change (fl2int 1 DROPS_M DROPS_E) with 1 in Hdec. lia.
Qed.

(** X8: [testbed_write_drops] loses no drop: the value of the codeword
    it returns and the count it leaves in the selected counter add up
    to the count it found there; the other counter is not touched, and
    both counters stay 16-bit values. *)
Theorem testbed_write_drops_conserves
    (INET_ECN_MASK tos : Z) (testbed : testbed_metrics) :
  0 <= drops_ecn testbed < 65536 ->
  0 <= drops_nonecn testbed < 65536 ->
  let ecn := negb (Z.land tos INET_ECN_MASK =? 0) in
  let selected t := if ecn then drops_ecn t else drops_nonecn t in
  let other t := if ecn then drops_nonecn t else drops_ecn t in
  let result := testbed_write_drops INET_ECN_MASK testbed tos in
  fl2int (fst result) DROPS_M DROPS_E + selected (snd result)
    = selected testbed /\
  other (snd result) = other testbed /\
  0 <= drops_ecn (snd result) < 65536 /\
  0 <= drops_nonecn (snd result) < 65536.
Proof.
  intros Hecn Hnon ecn selected other result.
  subst result selected other.
  rewrite testbed_write_drops_eq by assumption. fold ecn.
  pose proof (drops_codec_split _ Hecn) as (He1 & He2 & _).
  pose proof (drops_codec_split _ Hnon) as (Hn1 & Hn2 & _).
  destruct ecn; cbn [fst snd drops_ecn drops_nonecn];
    repeat split; lia.
Qed.

Lemma testbed_write_drops_conserves_witness :
  let tb := {| drops_ecn := 1000; drops_nonecn := 7 |} in
  0 <= drops_ecn tb < 65536 /\ 0 <= drops_nonecn tb < 65536 /\
  fl2int (fst (testbed_write_drops 3 tb 1)) DROPS_M DROPS_E
    + drops_ecn (snd (testbed_write_drops 3 tb 1)) = 1000.
Proof.
  intros tb.
  assert (R1 : 0 <= drops_ecn tb < 65536) by (cbn; lia).
  assert (R2 : 0 <= drops_nonecn tb < 65536) by (cbn; lia).
  exact (conj R1 (conj R2
           (proj1 (testbed_write_drops_conserves 3 1 tb R1 R2)))).
Defined.

(** X9: reading drains: when the selected counter is zero the call
    returns the codeword 0 and leaves the accumulator as it is; when it
    is not, the codeword is not 0 and the counter comes out strictly
    smaller. *)
Theorem testbed_write_drops_drains
    (INET_ECN_MASK tos : Z) (testbed : testbed_metrics) :
  0 <= drops_ecn testbed < 65536 ->
  0 <= drops_nonecn testbed < 65536 ->
  let ecn := negb (Z.land tos INET_ECN_MASK =? 0) in
  let selected t := if ecn then drops_ecn t else drops_nonecn t in
  let result := testbed_write_drops INET_ECN_MASK testbed tos in
  (selected testbed = 0 -> result = (0, testbed)) /\
  (selected testbed <> 0 ->
   fst result <> 0 /\ selected (snd result) < selected testbed).
Proof.
  intros Hecn Hnon ecn selected result.
  subst result selected.
  rewrite testbed_write_drops_eq by assumption. fold ecn.
  pose proof (drops_codec_split _ Hecn) as (_ & _ & He).
  pose proof (drops_codec_split _ Hnon) as (_ & _ & Hn).
  destruct testbed as [ce cn]. cbn [drops_ecn drops_nonecn] in *.
  destruct ecn; cbn [fst snd drops_ecn drops_nonecn]; split;
    try (intros ->; reflexivity); auto.
Qed.

Lemma testbed_write_drops_drains_witness :
  let tb := {| drops_ecn := 0; drops_nonecn := 9 |} in
  0 <= drops_ecn tb < 65536 /\ 0 <= drops_nonecn tb < 65536 /\
  testbed_write_drops 3 tb 2 = (0, tb) /\
  drops_nonecn (snd (testbed_write_drops 3 tb 0)) < 9.
Proof.
  intros tb.
  assert (R1 : 0 <= drops_ecn tb < 65536) by (cbn; lia).
  assert (R2 : 0 <= drops_nonecn tb < 65536) by (cbn; lia).
  assert (Hnz : drops_nonecn tb <> 0) by (cbn; lia).
  exact (conj R1 (conj R2
           (conj (proj1 (testbed_write_drops_drains 3 2 tb R1 R2) eq_refl)
                 (proj2 (proj2 (testbed_write_drops_drains 3 0 tb R1 R2)
                           Hnz))))).
Defined.

Lemma inc_iter_nonecn (NOT_ECT : Z) (n : nat) (t : testbed_metrics) :
  0 <= drops_nonecn t < 65536 ->
  let run :=
    Nat.iter n (fun t => testbed_inc_drop_count NOT_ECT t NOT_ECT) in
  drops_nonecn (run t) = (drops_nonecn t + Z.of_nat n) mod 65536 /\
  drops_ecn (run t) = drops_ecn t.
Proof.
  intros Ht run. subst run. induction n as [| k IH].
  - cbn [Nat.iter]. rewrite Z.add_0_r, Z.mod_small by lia. auto.
  - rewrite Nat.iter_succ. destruct IH as [IHn IHe].
    set (prev := Nat.iter k _ t) in *. unfold testbed_inc_drop_count.
    rewrite Z.eqb_refl. cbn [drops_ecn drops_nonecn].
    split; [| exact IHe]. rewrite IHn. unfold u16.
    change (2 ^ 16) with 65536. rewrite Z.add_mod_idemp_l by lia.
    f_equal. lia.
Qed.

Lemma inc_iter_ecn (NOT_ECT ect : Z) (n : nat) (t : testbed_metrics) :
  ect <> NOT_ECT ->
  0 <= drops_ecn t < 65536 ->
  let run := Nat.iter n (fun t => testbed_inc_drop_count NOT_ECT t ect) in
  drops_ecn (run t) = (drops_ecn t + Z.of_nat n) mod 65536 /\
  drops_nonecn (run t) = drops_nonecn t.
Proof.
  intros Hne Ht run. subst run. induction n as [| k IH].
  - cbn [Nat.iter]. rewrite Z.add_0_r, Z.mod_small by lia. auto.
  - rewrite Nat.iter_succ. destruct IH as [IHe IHn].
    set (prev := Nat.iter k _ t) in *. unfold testbed_inc_drop_count.
    rewrite (proj2 (Z.eqb_neq _ _) Hne). cbn [drops_ecn drops_nonecn].
    split; [| exact IHn]. rewrite IHe. unfold u16.
    change (2 ^ 16) with 65536. rewrite Z.add_mod_idemp_l by lia.
    f_equal. lia.
Qed.

(** X10: a run of [n] drops of one class adds [n], modulo [2 ^ 16], to
    the counter of that class and leaves the other counter alone; from
    [testbed_metrics_init] the counter is [n mod 2 ^ 16]. *)
Theorem testbed_inc_drop_count_iter
    (INET_ECN_NOT_ECT ect : Z) (n : nat) (testbed : testbed_metrics) :
  0 <= drops_ecn testbed < 65536 ->
  0 <= drops_nonecn testbed < 65536 ->
  let run :=
    Nat.iter n (fun t => testbed_inc_drop_count INET_ECN_NOT_ECT t ect) in
  (ect = INET_ECN_NOT_ECT ->
     drops_nonecn (run testbed)
       = (drops_nonecn testbed + Z.of_nat n) mod 65536 /\
     drops_ecn (run testbed) = drops_ecn testbed /\
     drops_nonecn (run testbed_metrics_init) = Z.of_nat n mod 65536) /\
  (ect <> INET_ECN_NOT_ECT ->
     drops_ecn (run testbed)
       = (drops_ecn testbed + Z.of_nat n) mod 65536 /\
     drops_nonecn (run testbed) = drops_nonecn testbed /\
     drops_ecn (run testbed_metrics_init) = Z.of_nat n mod 65536).
Proof.
  intros Hecn Hnon run. subst run. split; intros H.
  - subst ect.
    destruct (inc_iter_nonecn INET_ECN_NOT_ECT n testbed Hnon) as [H1 H2].
    destruct (inc_iter_nonecn INET_ECN_NOT_ECT n testbed_metrics_init
                ltac:(cbn; lia)) as [H3 _].
    cbn [drops_nonecn testbed_metrics_init] in H3. auto.
  - destruct (inc_iter_ecn INET_ECN_NOT_ECT ect n testbed H Hecn) as [H1 H2].
    destruct (inc_iter_ecn INET_ECN_NOT_ECT ect n testbed_metrics_init H
                ltac:(cbn; lia)) as [H3 _].
    cbn [drops_ecn testbed_metrics_init] in H3. auto.
Qed.

Lemma testbed_inc_drop_count_iter_witness :
  let tb := {| drops_ecn := 65530; drops_nonecn := 1 |} in
  0 <= drops_ecn tb < 65536 /\ 0 <= drops_nonecn tb < 65536 /\
  drops_ecn (Nat.iter 10 (fun t => testbed_inc_drop_count 0 t 2) tb)
    = (65530 + 10) mod 65536.
Proof.
  intros tb.
  assert (R1 : 0 <= drops_ecn tb < 65536) by (cbn; lia).
  assert (R2 : 0 <= drops_nonecn tb < 65536) by (cbn; lia).
  assert (Hne : 2 <> 0) by discriminate.
  exact (conj R1 (conj R2
           (proj1 (proj2 (testbed_inc_drop_count_iter 0 2 10 tb R1 R2)
                     Hne)))).
Defined.



(** * Further properties of the embedding *)

Lemma htons_ntohs (hi lo : Z) :
  0 <= hi < 256 -> 0 <= lo < 256 -> htons (ntohs (hi, lo)) = (hi, lo).
Proof.
  intros Hhi Hlo. unfold htons, ntohs. cbn [fst snd].
  rewrite u16_small by (change (2 ^ 16) with 65536; lia).
  rewrite Z.shiftr_div_pow2 by lia. change 255 with (2 ^ 8 - 1).
  rewrite land_pow2_pred by lia. change (2 ^ 8) with 256.
  f_equal.
  - symmetry. apply (Z.div_unique _ _ _ lo); lia.
  - symmetry. apply (Z.mod_unique _ _ hi); lia.
Qed.

(** The header after the embedding, through its first twelve bytes. *)
Lemma testbed_add_metrics_ipv4_view
    (INET_ECN_MASK : Z) (testbed : testbed_metrics) (qdelay : Z)
    (b0 b1 b2 b3 b4 b5 b6 b7 b8 b9 b10 b11 : Z) (rest : list Z) :
  let iph := b0 :: b1 :: b2 :: b3 :: b4 :: b5 :: b6 :: b7 :: b8 :: b9
                :: b10 :: b11 :: rest in
  let id :=
    testbed_id qdelay (u16 (fst (testbed_write_drops INET_ECN_MASK testbed b1)))
  in
  let check := testbed_check (ntohs (b10, b11)) (ntohs (b4, b5)) id in
  testbed_add_metrics_ipv4 INET_ECN_MASK iph testbed qdelay
  = (b0 :: b1 :: b2 :: b3 :: fst (htons id) :: snd (htons id)
        :: b6 :: b7 :: b8 :: b9
        :: fst (htons check) :: snd (htons check) :: rest,
     snd (testbed_write_drops INET_ECN_MASK testbed b1)).
Proof.
  intros iph id check. subst iph id check. unfold testbed_add_metrics_ipv4.
  change (iph_tos (b0 :: b1 :: _)) with b1.
  destruct (testbed_write_drops INET_ECN_MASK testbed b1) as [drops32 tb'].
  reflexivity.
Qed.

(** The sums that decide the validity of the header before and after
    the embedding differ by a multiple of [2 ^ 16 - 1], and both are
    positive 32-bit values. *)
Lemma testbed_add_metrics_ipv4_sums
    (INET_ECN_MASK : Z) (iph : list Z) (testbed : testbed_metrics)
    (qdelay : Z) :
  iphdr_wf iph ->
  exists total total' j : Z,
    ip_fast_csum iph = csum_fold total /\
    ip_fast_csum
      (fst (testbed_add_metrics_ipv4 INET_ECN_MASK iph testbed qdelay))
      = csum_fold total' /\
    0 < total < 2 ^ 32 /\ 0 < total' < 2 ^ 32 /\
    total' = total + 65535 * j.
Proof.
  intros (Hbytes & _ & Hihl & Hlen).
  destruct (iphdr_view iph ltac:(lia))
    as (b0 & b1 & b2 & b3 & b4 & b5 & b6 & b7 & b8 & b9 & b10 & b11 & rest
        & ->).
  unfold iph_ihl in Hihl, Hlen.
  change ((b0 :: _) !!! 0%nat) with b0 in Hihl, Hlen.
  rewrite testbed_add_metrics_ipv4_view. cbn [fst].
  rewrite !ip_fast_csum_view by assumption.
  do 12 (apply Forall_cons in Hbytes as [? Hbytes]).
  set (R := csum_words (take (Z.to_nat (4 * Z.land b0 15) - 12) rest)).
  assert (HR : 0 <= R <= 65535 * 48).
  { assert (Htake : Forall (fun b => 0 <= b < 256)
                      (take (Z.to_nat (4 * Z.land b0 15) - 12) rest))
      by now apply Forall_take.
    apply csum_words_bound in Htake as HRb.
    rewrite length_take in HRb. fold R in HRb.
    pose proof (ihl_le_15 b0). lia. }
  pose proof (ihl_le_byte b0 ltac:(lia)) as Hb0.
  set (id := testbed_id qdelay _).
  pose proof (testbed_id_range qdelay
                (u16 (fst (testbed_write_drops INET_ECN_MASK testbed b1))))
    as Hid.
  fold id in Hid.
  pose proof (ntohs_range b10 b11 ltac:(lia) ltac:(lia)) as Hcheck.
  pose proof (ntohs_range b4 b5 ltac:(lia) ltac:(lia)) as Hold.
  destruct (testbed_check_congruent _ _ id Hcheck Hold Hid) as [j Hj].
  pose proof (testbed_check_range (ntohs (b10, b11)) (ntohs (b4, b5)) id)
    as Hnew.
  set (check := testbed_check (ntohs (b10, b11)) (ntohs (b4, b5)) id) in *.
  change (ntohs (fst (htons id), snd (htons id))) with (ntohs (htons id)).
  change (ntohs (fst (htons check), snd (htons check)))
    with (ntohs (htons check)).
  rewrite !ntohs_htons. rewrite (u16_small id) by exact Hid.
  pose proof (ntohs_range b0 b1 ltac:(lia) ltac:(lia)) as Hw0.
  pose proof (ntohs_range b2 b3 ltac:(lia) ltac:(lia)) as Hw1.
  pose proof (ntohs_range b6 b7 ltac:(lia) ltac:(lia)) as Hw3.
  pose proof (ntohs_range b8 b9 ltac:(lia) ltac:(lia)) as Hw4.
  assert (Hpos : 1280 <= ntohs (b0, b1)) by (unfold ntohs; cbn [fst snd]; lia).
  eexists _, _, j. split; [reflexivity | split; [reflexivity |]].
  change (2 ^ 32) with 4294967296. lia.
Qed.

Lemma htons_bytes (v : Z) :
  0 <= fst (htons v) < 256 /\ 0 <= snd (htons v) < 256.
Proof.
  unfold htons. cbn [fst snd]. pose proof (u16_range v) as Hv.
  rewrite Z.shiftr_div_pow2 by lia. change 255 with (2 ^ 8 - 1).
  rewrite land_pow2_pred by lia. change (2 ^ 8) with 256.
  pose proof (Z.mod_pos_bound (u16 v) 256 ltac:(lia)).
  pose proof (Z.div_pos (u16 v) 256 ltac:(lia) ltac:(lia)).
  pose proof (Z.div_lt_upper_bound (u16 v) 256 256 ltac:(lia) ltac:(lia)).
  lia.
Qed.

(** Bytes and length the embedding leaves alone. *)
Lemma testbed_add_metrics_ipv4_untouched
    (INET_ECN_MASK : Z) (iph : list Z) (testbed : testbed_metrics)
    (qdelay : Z) :
  let iph' :=
    fst (testbed_add_metrics_ipv4 INET_ECN_MASK iph testbed qdelay) in
  length iph' = length iph /\
  forall i : nat,
    i <> 4%nat -> i <> 5%nat -> i <> 10%nat -> i <> 11%nat ->
    iph' !! i = iph !! i.
Proof.
  intros iph'. subst iph'. unfold testbed_add_metrics_ipv4.
  destruct (testbed_write_drops _ _ _) as [drops32 tb']. cbn [fst].
  unfold set_iph_check, set_iph_id, store_be16. split.
  - now rewrite !length_insert.
  - intros i H4 H5 H10 H11. now rewrite !list_lookup_insert_ne by lia.
Qed.

(** X12: the embedding writes the identification and checksum fields
    and nothing else: the header keeps its length, and every byte other
    than bytes 4, 5, 10 and 11 keeps its value, the [tos] byte and the
    version and header length among them. *)
Theorem testbed_add_metrics_ipv4_frame
    (INET_ECN_MASK : Z) (iph : list Z) (testbed : testbed_metrics)
    (qdelay : Z) :
  let iph' :=
    fst (testbed_add_metrics_ipv4 INET_ECN_MASK iph testbed qdelay) in
  length iph' = length iph /\
  (forall i : nat,
     i <> 4%nat -> i <> 5%nat -> i <> 10%nat -> i <> 11%nat ->
     iph' !! i = iph !! i) /\
  iph_tos iph' = iph_tos iph /\
  iph_ihl iph' = iph_ihl iph /\
  iph_version iph' = iph_version iph.
Proof.
  intros iph'.
  destruct (testbed_add_metrics_ipv4_untouched INET_ECN_MASK iph testbed
              qdelay) as [Hlen Hother].
  fold iph' in Hlen, Hother.
  split; [exact Hlen | split; [exact Hother |]].
  unfold iph_tos, iph_ihl, iph_version.
  rewrite !list_lookup_total_alt.
  rewrite (Hother 0%nat), (Hother 1%nat) by lia. auto.
Qed.

Lemma testbed_add_metrics_ipv4_frame_witness :
  let iph := [69; 0; 0; 84; 18; 52; 64; 0; 64; 1; 166; 92;
              192; 168; 0; 1; 192; 168; 0; 199] in
  let tb := {| drops_ecn := 100; drops_nonecn := 7 |} in
  fst (testbed_add_metrics_ipv4 3 iph tb 2046) !! 12%nat = Some 192.
Proof.
  intros iph tb.
  exact (proj1 (proj2 (testbed_add_metrics_ipv4_frame 3 iph tb 2046))
           12%nat ltac:(discriminate) ltac:(discriminate)
           ltac:(discriminate) ltac:(discriminate)).
Defined.

(** X13: on a well-formed header the embedding neither breaks nor
    repairs the checksum: the header verifies afterwards exactly when
    it verified before, and it is still a well-formed header. *)
Theorem testbed_add_metrics_ipv4_validity_iff
    (INET_ECN_MASK : Z) (iph : list Z) (testbed : testbed_metrics)
    (qdelay : Z) :
  iphdr_wf iph ->
  let iph' :=
    fst (testbed_add_metrics_ipv4 INET_ECN_MASK iph testbed qdelay) in
  (ip_fast_csum iph' = 0 <-> ip_fast_csum iph = 0) /\ iphdr_wf iph'.
Proof.
  intros Hwf iph'. split.
  - destruct (testbed_add_metrics_ipv4_sums INET_ECN_MASK iph testbed qdelay
                Hwf) as (total & total' & j & -> & Hnew & Ht & Ht' & Hj).
    subst iph'. rewrite Hnew.
    rewrite !csum_fold_zero_iff by lia.
    split; intros (k & Hk & Hsum).
    + exists (k - j). lia.
    + exists (k + j). lia.
  - destruct Hwf as (Hbytes & Hver & Hihl & Hlen).
    destruct (iphdr_view iph ltac:(lia))
      as (b0 & b1 & b2 & b3 & b4 & b5 & b6 & b7 & b8 & b9 & b10 & b11 & rest
          & ->).
    subst iph'. rewrite testbed_add_metrics_ipv4_view. cbn [fst].
    unfold iphdr_wf.
    split; [| split; [exact Hver | split; [exact Hihl | exact Hlen]]].
    do 12 (apply Forall_cons in Hbytes as [? Hbytes]).
    repeat (apply Forall_cons; split;
            [first [assumption | apply htons_bytes] |]).
    exact Hbytes.
Qed.

Lemma testbed_add_metrics_ipv4_validity_iff_witness :
  let iph := [69; 0; 0; 84; 18; 52; 64; 0; 64; 1; 166; 93;
              192; 168; 0; 1; 192; 168; 0; 199] in
  let tb := {| drops_ecn := 100; drops_nonecn := 7 |} in
  iphdr_wf iph /\ ip_fast_csum iph <> 0 /\
  ip_fast_csum (fst (testbed_add_metrics_ipv4 3 iph tb 2046)) <> 0.
Proof.
  intros iph tb.
  assert (Hwf : iphdr_wf iph).
  { unfold iphdr_wf. split; [| split; [reflexivity | split]].
    - subst iph. repeat (apply Forall_cons; split; [lia |]). constructor.
    - vm_compute. discriminate.
    - vm_compute. discriminate. }
  assert (Hbad : ip_fast_csum iph <> 0) by (vm_compute; discriminate).
  exact (conj Hwf (conj Hbad
           (fun Hnew => Hbad
              (proj1 (proj1 (testbed_add_metrics_ipv4_validity_iff 3 iph tb
                               2046 Hwf)) Hnew)))).
Defined.

(** Writing back the identification value already there gives the old
    checksum back, unless the old checksum was the other zero of one's
    complement, [0xffff], which comes back as 0. *)
Lemma testbed_check_same_id (old_check old_id : Z) :
  0 <= old_check < 65536 -> 0 <= old_id < 65536 ->
  u16 (testbed_check old_check old_id old_id)
  = if old_check =? 65535 then 0 else old_check.
Proof.
  intros Hc Hi. unfold testbed_check.
  rewrite (u32_small (old_check + old_id))
    by (change (2 ^ 32) with 4294967296; lia).
  rewrite testbed_check_add by lia.
  destruct (Z.ltb_spec (old_check + old_id) 65535) as [Hlt | Hge];
    rewrite testbed_check_sub by lia;
    match goal with |- context [?a <=? ?b] =>
      destruct (Z.leb_spec a b) end;
    destruct (Z.eqb_spec old_check 65535); lia.
Qed.

Lemma htons_u16 (v : Z) : htons (u16 v) = htons v.
Proof.
  unfold htons. now rewrite (u16_small (u16 v)) by apply u16_range.
Qed.

(** The two codewords are read back from a packed identification
    value by mask and shift. *)
Lemma testbed_id_unpack (qdelay drops : Z) :
  0 <= qdelay < 2048 -> 0 <= drops < 32 ->
  Z.land (testbed_id qdelay drops) 2047 = qdelay /\
  Z.shiftr (testbed_id qdelay drops) 11 = drops.
Proof.
  intros Hq Hd. rewrite testbed_id_pack by assumption. split.
  - change 2047 with (2 ^ 11 - 1). rewrite land_pow2_pred by lia.
    change (2 ^ 11) with 2048.
    rewrite Z.add_comm, Z_mod_plus_full. apply Z.mod_small. lia.
  - rewrite Z.shiftr_div_pow2 by lia. change (2 ^ 11) with 2048.
    rewrite Z.add_comm, Z_div_plus_full by lia.
    rewrite Z.div_small by lia. lia.
Qed.

(** X14: embedding the identification value the header already holds
    leaves the header byte for byte as it is; only an old checksum
    field of [0xffff] is rewritten, as 0. *)
Theorem testbed_add_metrics_ipv4_same_id
    (INET_ECN_MASK : Z) (iph : list Z) (testbed : testbed_metrics)
    (qdelay : Z) :
  Forall (fun b => 0 <= b < 256) iph ->
  sizeof_iphdr <= Z.of_nat (length iph) ->
  testbed_id qdelay
    (u16 (fst (testbed_write_drops INET_ECN_MASK testbed (iph_tos iph))))
  = ntohs (iph_id iph) ->
  let iph' :=
    fst (testbed_add_metrics_ipv4 INET_ECN_MASK iph testbed qdelay) in
  (ntohs (iph_check iph) <> 65535 -> iph' = iph) /\
  (ntohs (iph_check iph) = 65535 ->
   ntohs (iph_check iph') = 0 /\ iph_id iph' = iph_id iph).
Proof.
  intros Hbytes Hlen Hid iph'. unfold sizeof_iphdr in Hlen.
  destruct (iphdr_view iph ltac:(lia))
    as (b0 & b1 & b2 & b3 & b4 & b5 & b6 & b7 & b8 & b9 & b10 & b11 & rest
        & ->).
  subst iph'. rewrite testbed_add_metrics_ipv4_view. cbn [fst].
  change (iph_tos (b0 :: b1 :: _)) with b1 in Hid.
  change (iph_id (b0 :: b1 :: b2 :: b3 :: ?x :: ?y :: _)) with (x, y) in *.
  change (iph_check (b0 :: b1 :: b2 :: b3 :: _ :: _ :: b6 :: b7 :: b8 :: b9
                        :: ?x :: ?y :: _)) with (x, y).
  rewrite Hid.
  do 12 (apply Forall_cons in Hbytes as [? Hbytes]).
  pose proof (ntohs_range b10 b11 ltac:(lia) ltac:(lia)) as Hcheck.
  pose proof (ntohs_range b4 b5 ltac:(lia) ltac:(lia)) as Hold.
  pose proof (testbed_check_same_id _ _ Hcheck Hold) as Hsame.
  rewrite <- (htons_u16 (testbed_check _ _ _)), Hsame.
  rewrite (htons_ntohs b4 b5) by lia. cbn [fst snd].
  split; intros Hc.
  - rewrite (proj2 (Z.eqb_neq _ _) Hc).
    rewrite (htons_ntohs b10 b11) by lia. reflexivity.
  - rewrite (proj2 (Z.eqb_eq _ _) Hc). split; reflexivity.
Qed.

Lemma testbed_add_metrics_ipv4_same_id_witness :
  let iph := [69; 0; 0; 84; 63; 254; 64; 0; 64; 1; 120; 146;
              192; 168; 0; 1; 192; 168; 0; 199] in
  let tb := {| drops_ecn := 100; drops_nonecn := 7 |} in
  Forall (fun b => 0 <= b < 256) iph /\
  sizeof_iphdr <= Z.of_nat (length iph) /\
  fst (testbed_add_metrics_ipv4 3 iph tb 2046) = iph.
Proof.
  intros iph tb.
  assert (Hbytes : Forall (fun b => 0 <= b < 256) iph).
  { subst iph. repeat (apply Forall_cons; split; [lia |]). constructor. }
  assert (Hlen : sizeof_iphdr <= Z.of_nat (length iph))
    by (vm_compute; discriminate).
  assert (Hc : ntohs (iph_check iph) <> 65535) by (vm_compute; discriminate).
  exact (conj Hbytes (conj Hlen
           (proj1 (testbed_add_metrics_ipv4_same_id 3 iph tb 2046
                     Hbytes Hlen eq_refl) Hc))).
Defined.

(** * Further properties of the dispatch *)

(** X15: an IPv4 packet whose header could be pulled and made writable
    leaves [testbed_add_metrics] carrying the metrics: the low 11 bits
    of its identification field are the (7,4) codeword of the delay,
    the high 5 bits the drop codeword, the accumulator is the one
    [testbed_write_drops] leaves, the checksum verifies exactly when it
    did before, and what the field decodes to never exceeds the delay
    that was measured. *)
Theorem testbed_add_metrics_ipv4_path
    (INET_ECN_MASK ETH_P_IP ETH_P_IPV6 : Z)
    (pskb_may_pull : sk_buff -> Z -> bool)
    (skb_try_make_writable : sk_buff -> Z -> Z)
    (skb : sk_buff) (testbed : testbed_metrics) (qdelay_us : Z) :
  skb_protocol skb = ETH_P_IP ->
  pskb_may_pull skb (skb_network_offset skb + sizeof_iphdr) = true ->
  skb_try_make_writable skb (skb_network_offset skb + sizeof_iphdr) = 0 ->
  iphdr_wf (ip_hdr skb) ->
  0 <= drops_ecn testbed < 65536 ->
  0 <= drops_nonecn testbed < 65536 ->
  0 <= qdelay_us < 2 ^ 32 ->
  let result :=
    testbed_add_metrics INET_ECN_MASK ETH_P_IP ETH_P_IPV6
      pskb_may_pull skb_try_make_writable skb testbed qdelay_us in
  let id := ntohs (iph_id (ip_hdr (fst result))) in
  let drops :=
    testbed_write_drops INET_ECN_MASK testbed (iph_tos (ip_hdr skb)) in
  Z.land id 2047 = fst (int2fl qdelay_us QDELAY_M QDELAY_E) /\
  Z.shiftr id 11 = fst drops /\
  snd result = snd drops /\
  (ip_fast_csum (ip_hdr (fst result)) = 0
   <-> ip_fast_csum (ip_hdr skb) = 0) /\
  fl2int (Z.land id 2047) QDELAY_M QDELAY_E <= qdelay_us.
Proof.
  intros Hproto Hpull Hwr Hwf Hecn Hnon Hq result id drops.
  pose proof (int2fl_codeword_range _ _ qdelay_params_ok qdelay_us Hq)
    as Hcw.
  change (2 ^ (QDELAY_M + QDELAY_E)) with 2048 in Hcw.
  pose proof (testbed_write_drops_range INET_ECN_MASK (iph_tos (ip_hdr skb))
                testbed Hecn Hnon) as Hdrops.
  fold drops in Hdrops.
  set (qdelay := fst (int2fl qdelay_us QDELAY_M QDELAY_E)) in *.
  assert (Hresult : result =
            (set_ip_hdr skb
               (fst (testbed_add_metrics_ipv4 INET_ECN_MASK (ip_hdr skb)
                       testbed qdelay)),
             snd (testbed_add_metrics_ipv4 INET_ECN_MASK (ip_hdr skb)
                    testbed qdelay))).
  { subst result. unfold testbed_add_metrics.
    rewrite Hproto, Z.eqb_refl, Hpull, Hwr. cbn [negb orb Z.eqb].
    fold qdelay. rewrite (u16_small qdelay)
      by (change (2 ^ 16) with 65536; lia).
    now destruct (testbed_add_metrics_ipv4 _ _ _ _). }
  assert (Hid : id = testbed_id qdelay (fst drops)
                /\ snd result = snd drops).
  { subst id. rewrite Hresult. cbn [fst snd ip_hdr set_ip_hdr skb_network_data].
    destruct Hwf as (_ & _ & Hihl & Hlen). subst drops.
    unfold ip_hdr in *.
    destruct (iphdr_view (skb_network_data skb) ltac:(lia))
      as (b0 & b1 & b2 & b3 & b4 & b5 & b6 & b7 & b8 & b9 & b10 & b11 & rest
          & Heq).
    rewrite Heq in *. rewrite testbed_add_metrics_ipv4_view. cbn [fst snd].
    change (iph_tos (b0 :: b1 :: _)) with b1 in *.
    change (iph_id (b0 :: b1 :: b2 :: b3 :: ?x :: ?y :: _)) with (x, y).
    change (ntohs (fst ?x, snd ?x)) with (ntohs x).
    rewrite ntohs_htons, (u16_small (fst _))
      by (change (2 ^ 16) with 65536; lia).
    split; [apply u16_small, testbed_id_range | reflexivity]. }
  destruct Hid as [Hid Hacc].
  destruct (testbed_id_unpack qdelay (fst drops) ltac:(lia) ltac:(lia))
    as [Hlow Hhigh].
  rewrite Hid, Hlow, Hhigh.
  split; [reflexivity | split; [reflexivity | split; [exact Hacc | split]]].
  - rewrite Hresult. cbn [fst ip_hdr set_ip_hdr skb_network_data].
    destruct (testbed_add_metrics_ipv4_sums INET_ECN_MASK (ip_hdr skb)
                testbed qdelay Hwf)
      as (total & total' & j & Hold & Hnew & Ht & Ht' & Hj).
    unfold ip_hdr in *. rewrite Hold, Hnew.
    rewrite !csum_fold_zero_iff by lia.
    split; intros (k & Hk & Hsum).
    + exists (k - j). lia.
    + exists (k + j). lia.
  - pose proof (codec_roundtrip _ _ qdelay_params_ok qdelay_us Hq).
    pose proof (int2fl_remainder_nonneg _ _ qdelay_params_ok qdelay_us Hq).
    fold qdelay in H. lia.
Qed.

Lemma testbed_add_metrics_ipv4_path_witness :
  let skb := {| skb_protocol := 2048; skb_network_offset := 14;
                skb_network_data :=
                  [69; 0; 0; 84; 18; 52; 64; 0; 64; 1; 166; 92;
                   192; 168; 0; 1; 192; 168; 0; 199] |} in
  let tb := {| drops_ecn := 100; drops_nonecn := 7 |} in
  let result :=
    testbed_add_metrics 3 2048 34525 (fun _ _ => true) (fun _ _ => 0)
      skb tb 70000 in
  iphdr_wf (ip_hdr skb) /\ 0 <= 70000 < 2 ^ 32 /\
  Z.land (ntohs (iph_id (ip_hdr (fst result)))) 2047
    = fst (int2fl 70000 QDELAY_M QDELAY_E) /\
  Z.shiftr (ntohs (iph_id (ip_hdr (fst result)))) 11 = 7.
Proof.
  intros skb tb result.
  assert (Hwf : iphdr_wf (ip_hdr skb)).
  { unfold iphdr_wf. split; [| split; [reflexivity | split]].
    - cbn. repeat (apply Forall_cons; split; [lia |]). constructor.
    - vm_compute. discriminate.
    - vm_compute. discriminate. }
  assert (R1 : 0 <= drops_ecn tb < 65536) by (cbn; lia).
  assert (R2 : 0 <= drops_nonecn tb < 65536) by (cbn; lia).
  assert (Hq : 0 <= 70000 < 2 ^ 32)
    by (vm_compute; split; [discriminate | reflexivity]).
  pose proof (testbed_add_metrics_ipv4_path 3 2048 34525 (fun _ _ => true)
                (fun _ _ => 0) skb tb 70000 eq_refl eq_refl eq_refl
                Hwf R1 R2 Hq) as (Hlow & Hhigh & _).
  exact (conj Hwf (conj Hq (conj Hlow Hhigh))).
Defined.

(** X16: whatever the protocol and whatever the buffer helpers answer,
    [testbed_add_metrics] keeps the protocol, the network offset and
    the length of the packet, and changes no byte of the network header
    other than bytes 4, 5, 10 and 11. *)
Theorem testbed_add_metrics_frame
    (INET_ECN_MASK ETH_P_IP ETH_P_IPV6 : Z)
    (pskb_may_pull : sk_buff -> Z -> bool)
    (skb_try_make_writable : sk_buff -> Z -> Z)
    (skb : sk_buff) (testbed : testbed_metrics) (qdelay_us : Z) :
  let skb' :=
    fst (testbed_add_metrics INET_ECN_MASK ETH_P_IP ETH_P_IPV6
           pskb_may_pull skb_try_make_writable skb testbed qdelay_us) in
  skb_protocol skb' = skb_protocol skb /\
  skb_network_offset skb' = skb_network_offset skb /\
  length (ip_hdr skb') = length (ip_hdr skb) /\
  forall i : nat,
    i <> 4%nat -> i <> 5%nat -> i <> 10%nat -> i <> 11%nat ->
    ip_hdr skb' !! i = ip_hdr skb !! i.
Proof.
  intros skb'. subst skb'. unfold testbed_add_metrics.
  destruct (skb_protocol skb =? ETH_P_IP).
  - destruct (negb _ || negb _); [auto |].
    match goal with
    | |- context [testbed_add_metrics_ipv4 ?m ?h ?t ?q] =>
        destruct (testbed_add_metrics_ipv4_untouched m h t q)
          as [Hlen Hother];
        destruct (testbed_add_metrics_ipv4 m h t q) as [iph' tb']
    end.
    cbn [fst snd ip_hdr set_ip_hdr skb_protocol skb_network_offset
         skb_network_data] in *.
    auto.
  - destruct (skb_protocol skb =? ETH_P_IPV6);
      [destruct (negb _ || negb _) |]; auto.
Qed.

Lemma testbed_add_metrics_frame_witness :
  let skb := {| skb_protocol := 2048; skb_network_offset := 14;
                skb_network_data :=
                  [69; 0; 0; 84; 18; 52; 64; 0; 64; 1; 166; 92;
                   192; 168; 0; 1; 192; 168; 0; 199] |} in
  let tb := {| drops_ecn := 100; drops_nonecn := 7 |} in
  ip_hdr (fst (testbed_add_metrics 3 2048 34525 (fun _ _ => true)
                 (fun _ _ => 0) skb tb 70000)) !! 19%nat = Some 199.
Proof.
  intros skb tb.
  exact (proj2 (proj2 (proj2
           (testbed_add_metrics_frame 3 2048 34525 (fun _ _ => true)
              (fun _ _ => 0) skb tb 70000)))
           19%nat ltac:(discriminate) ltac:(discriminate)
           ltac:(discriminate) ltac:(discriminate)).
Defined.
